(** * Frame admission, result cache and retry logic of the logo detector

    A shallow embedding of [js/smart-detection.js] (class [SmartDetection])
    and of the Rekognition wrapper (class [RekognitionService]), together
    with the properties that the design document states about them.

    JavaScript numbers are IEEE-754 binary64 values.  The pixel arithmetic
    is written once over an interface [JSNumber] and instantiated twice:
    with Rocq's primitive [float] (the arithmetic the browser performs, so
    the functions can be run on concrete frames) and with the real numbers
    [R] (the same formulas without rounding, used for bounds that hold for
    every frame).  Wall-clock times, counters and array indices are
    integers well below 2^53, where binary64 arithmetic is exact; they are
    modelled in [Z] and [nat]. *)

From Stdlib Require Import ZArith List Bool String Ascii Lia.
From Stdlib Require Import Reals Lra.
From Stdlib Require Import Floats.PrimFloat Numbers.Cyclic.Int63.Uint63.
From Stdlib Require Import Init.Byte DecimalString.
From Stdlib Require DecimalZ.
Import ListNotations.

Local Open Scope Z_scope.

(* ================================================================== *)
(** ** Numbers *)

Class JSNumber (T : Type) : Type := {
  num_of_Z : Z -> T;          (* an integer literal or a byte read from a buffer *)
  num_undef : T;              (* result of arithmetic on [undefined] *)
  nadd : T -> T -> T;
  nsub : T -> T -> T;
  nmul : T -> T -> T;
  ndiv : T -> T -> T;
  nsqrt : T -> T;             (* Math.sqrt *)
  nabs : T -> T;              (* Math.abs *)
  nmax : T -> T -> T;         (* Math.max *)
  nltb : T -> T -> bool       (* a < b *)
}.

Declare Scope num_scope.
Delimit Scope num_scope with num.
Infix "+" := nadd : num_scope.
Infix "-" := nsub : num_scope.
Infix "*" := nmul : num_scope.
Infix "/" := ndiv : num_scope.
Notation "a <? b" := (nltb a b) : num_scope.
Notation "a >? b" := (nltb b a) : num_scope.

(** A decimal literal [n/d] with [d] a power of ten.  Both [n] and [d] are
    exactly representable and binary64 division rounds correctly, so at
    [float] this is the double that the literal denotes in JavaScript. *)
Definition dec {T} `{JSNumber T} (n d : Z) : T := (num_of_Z n / num_of_Z d)%num.

Module FloatNum.

Definition of_Z (z : Z) : float :=
  if z <? 0 then PrimFloat.opp (PrimFloat.of_uint63 (Uint63.of_Z (- z)))
  else PrimFloat.of_uint63 (Uint63.of_Z z).

(** Math.max on two arguments: NaN if either is NaN, otherwise the
    larger, with [+0] preferred over [-0]. *)
Definition max (x y : float) : float :=
  if PrimFloat.is_nan x then x
  else if PrimFloat.is_nan y then y
  else if PrimFloat.ltb x y then y
  else if PrimFloat.ltb y x then x
  else if PrimFloat.get_sign x then y else x.

End FloatNum.

#[export] Instance float_JSNumber : JSNumber float := {|
  num_of_Z := FloatNum.of_Z;
  num_undef := PrimFloat.nan;
  nadd := PrimFloat.add;
  nsub := PrimFloat.sub;
  nmul := PrimFloat.mul;
  ndiv := PrimFloat.div;
  nsqrt := PrimFloat.sqrt;
  nabs := PrimFloat.abs;
  nmax := FloatNum.max;
  nltb := PrimFloat.ltb
|}.

Module RealNum.

Definition ltb (x y : R) : bool := if Rlt_dec x y then true else false.

End RealNum.


(* ================================================================== *)
(** ** Loops and buffers *)

(** The values taken by [i] in [for (let i = start; i < stop; i += step)],
    for a positive [step]. *)
Fixpoint count_up (n : nat) (start step : Z) : list Z :=
  match n with
  | O => []
  | S n' => start :: count_up n' (start + step) step
  end.

Definition for_range (start stop step : Z) : list Z :=
  count_up (Z.to_nat ((stop - start + step - 1) / step)) start step.

(** [ImageData]: an RGBA byte buffer (a [Uint8ClampedArray]) with its
    dimensions. *)
Record ImageData : Type := {
  data : list byte;
  width : Z;
  height : Z
}.

(** The browser only produces image data whose buffer holds four bytes
    per pixel. *)
Definition wf_image (img : ImageData) : Prop :=
  0 <= width img /\ 0 <= height img /\
  Z.of_nat (List.length (data img)) = 4 * width img * height img.

Definition data_length (d : list byte) : Z := Z.of_nat (List.length d).

(** [d[i]] used as a number: the byte value, or NaN when [i] is outside
    the buffer (the read yields [undefined]). *)
Definition byte_at {T} `{JSNumber T} (d : list byte) (i : Z) : T :=
  if i <? 0 then num_undef
  else match nth_error d (Z.to_nat i) with
       | Some b => num_of_Z (Z.of_N (Byte.to_N b))
       | None => num_undef
       end.

(** [{ canvas, imageData, dataURL }] as returned by the camera. *)
Record FrameData : Type := {
  imageData : ImageData;
  dataURL : string
}.

(* ================================================================== *)
(** ** js/smart-detection.js *)

Module SmartDetection.

Record Stats : Type := {
  framesAnalyzed : Z;
  framesSkipped : Z;
  motionDetected : Z;
  qualityPassed : Z
}.

Record t (T : Type) : Type := {
  lastFrame : option ImageData;
  lastScanTime : Z;
  isEnabled : bool;
  motionThreshold : T;
  qualityThreshold : T;
  scanInterval : Z;
  stats : Stats
}.
Arguments lastFrame {T} _.
Arguments lastScanTime {T} _.
Arguments isEnabled {T} _.
Arguments motionThreshold {T} _.
Arguments qualityThreshold {T} _.
Arguments scanInterval {T} _.
Arguments stats {T} _.

(** The [return] statements of [shouldProcessFrame], in source order. *)
Inductive ReturnSite : Type :=
| RetDisabled      (* [return true], smart detection disabled *)
| RetThrottled     (* [return false], time-based throttling *)
| RetNoMotion      (* [return false], motion detection *)
| RetLowQuality    (* [return false], quality assessment *)
| RetAdmitted.     (* [return true] *)

Definition returned (site : ReturnSite) : bool :=
  match site with
  | RetDisabled | RetAdmitted => true
  | RetThrottled | RetNoMotion | RetLowQuality => false
  end.

Definition zero_stats : Stats :=
  {| framesAnalyzed := 0; framesSkipped := 0;
     motionDetected := 0; qualityPassed := 0 |}.

Section WithNumber.
Context {T : Type} `{JSNumber T}.

Local Open Scope num_scope.

(** [constructor()], with the three values read from [CONFIG.DETECTION]. *)
Definition constructor (MOTION_THRESHOLD QUALITY_THRESHOLD : T)
    (SCAN_INTERVAL : Z) : t T :=
  {| lastFrame := None;
     lastScanTime := 0;
     isEnabled := true;
     motionThreshold := MOTION_THRESHOLD;
     qualityThreshold := QUALITY_THRESHOLD;
     scanInterval := SCAN_INTERVAL;
     stats := zero_stats |}.

Definition set_stats (s : t T) (st : Stats) : t T :=
  {| lastFrame := lastFrame s; lastScanTime := lastScanTime s;
     isEnabled := isEnabled s; motionThreshold := motionThreshold s;
     qualityThreshold := qualityThreshold s;
     scanInterval := scanInterval s; stats := st |}.

Definition set_lastFrame (s : t T) (f : option ImageData) : t T :=
  {| lastFrame := f; lastScanTime := lastScanTime s;
     isEnabled := isEnabled s; motionThreshold := motionThreshold s;
     qualityThreshold := qualityThreshold s;
     scanInterval := scanInterval s; stats := stats s |}.

Definition set_lastScanTime (s : t T) (n : Z) : t T :=
  {| lastFrame := lastFrame s; lastScanTime := n;
     isEnabled := isEnabled s; motionThreshold := motionThreshold s;
     qualityThreshold := qualityThreshold s;
     scanInterval := scanInterval s; stats := stats s |}.

Definition incr_framesAnalyzed (st : Stats) : Stats :=
  {| framesAnalyzed := framesAnalyzed st + 1;
     framesSkipped := framesSkipped st;
     motionDetected := motionDetected st;
     qualityPassed := qualityPassed st |}.

Definition incr_framesSkipped (st : Stats) : Stats :=
  {| framesAnalyzed := framesAnalyzed st;
     framesSkipped := framesSkipped st + 1;
     motionDetected := motionDetected st;
     qualityPassed := qualityPassed st |}.

Definition incr_motionDetected (st : Stats) : Stats :=
  {| framesAnalyzed := framesAnalyzed st;
     framesSkipped := framesSkipped st;
     motionDetected := motionDetected st + 1;
     qualityPassed := qualityPassed st |}.

Definition incr_qualityPassed (st : Stats) : Stats :=
  {| framesAnalyzed := framesAnalyzed st;
     framesSkipped := framesSkipped st;
     motionDetected := motionDetected st;
     qualityPassed := qualityPassed st + 1 |}.

(** [0.299 * r + 0.587 * g + 0.114 * b] *)
Definition luminance (r g b : T) : T :=
  dec 299 1000 * r + dec 587 1000 * g + dec 114 1000 * b.

(** [getLuminance(data, index)] *)
Definition getLuminance (d : list byte) (index : Z) : T :=
  if ((index <? 0) || (index >=? data_length d - 2))%Z then num_of_Z 0
  else luminance (byte_at d index) (byte_at d (index + 1))
                 (byte_at d (index + 2)).

(** [copyImageData(imageData)]: a fresh buffer of the same dimensions,
    into which the bytes are copied. *)
Definition copyImageData (img : ImageData) : ImageData :=
  {| data := data img; width := width img; height := height img |}.

(** [calculateFrameDifference(frame1, frame2)] *)
Definition calculateFrameDifference (frame1 frame2 : ImageData) : T :=
  let data1 := data frame1 in
  let data2 := data frame2 in
  let '(totalDiff, pixelCount) :=
    fold_left
      (fun (acc : T * Z) (i : Z) =>
         let '(totalDiff, pixelCount) := acc in
         let lum1 := luminance (byte_at data1 i) (byte_at data1 (i + 1))
                               (byte_at data1 (i + 2)) in
         let lum2 := luminance (byte_at data2 i) (byte_at data2 (i + 1))
                               (byte_at data2 (i + 2)) in
         (totalDiff + nabs (lum1 - lum2), (pixelCount + 1)%Z))
      (for_range 0 (data_length data1) 16)
      (num_of_Z 0, 0%Z) in
  if (pixelCount >? 0)%Z
  then (totalDiff / num_of_Z pixelCount) / num_of_Z 255
  else num_of_Z 0.

(** One pass of the inner loop body of [calculateSharpness]. *)
Definition sobel_at (d : list byte) (w : Z) (x y : Z) : T :=
  let idx := ((y * w + x) * 4)%Z in
  let tl := getLuminance d (idx - w * 4 - 4)%Z in
  let tm := getLuminance d (idx - w * 4)%Z in
  let tr := getLuminance d (idx - w * 4 + 4)%Z in
  let ml := getLuminance d (idx - 4)%Z in
  let mm := getLuminance d idx in
  let mr := getLuminance d (idx + 4)%Z in
  let bl := getLuminance d (idx + w * 4 - 4)%Z in
  let bm := getLuminance d (idx + w * 4)%Z in
  let br := getLuminance d (idx + w * 4 + 4)%Z in
  let gx := num_of_Z (-1) * tl + num_of_Z 1 * tr + num_of_Z (-2) * ml
            + num_of_Z 2 * mr + num_of_Z (-1) * bl + num_of_Z 1 * br in
  let gy := num_of_Z (-1) * tl + num_of_Z (-2) * tm + num_of_Z (-1) * tr
            + num_of_Z 1 * bl + num_of_Z 2 * bm + num_of_Z 1 * br in
  nsqrt (gx * gx + gy * gy).

(** [calculateSharpness(imageData)] *)
Definition calculateSharpness (img : ImageData) : T :=
  let d := data img in
  let w := width img in
  let h := height img in
  let '(sharpness, count) :=
    fold_left
      (fun (acc : T * Z) (y : Z) =>
         fold_left
           (fun (acc : T * Z) (x : Z) =>
              let '(sharpness, count) := acc in
              (sharpness + sobel_at d w x y, (count + 1)%Z))
           (for_range 1 (w - 1) 4) acc)
      (for_range 1 (h - 1) 1)
      (num_of_Z 0, 0%Z) in
  if (count >? 0)%Z
  then (sharpness / num_of_Z count) / num_of_Z 255
  else num_of_Z 0.

(** The final three lines of [calculateBrightness]. *)
Definition brightness_score (avgBrightness : T) : T :=
  if avgBrightness <? num_of_Z 50
  then avgBrightness / num_of_Z 50 * dec 5 10
  else if avgBrightness >? num_of_Z 200
  then nmax (num_of_Z 0)
            (num_of_Z 1 - (avgBrightness - num_of_Z 200) / num_of_Z 55)
  else num_of_Z 1.

(** [calculateBrightness(imageData)] *)
Definition calculateBrightness (img : ImageData) : T :=
  let d := data img in
  let '(totalBrightness, count) :=
    fold_left
      (fun (acc : T * Z) (i : Z) =>
         let '(totalBrightness, count) := acc in
         let lum := luminance (byte_at d i) (byte_at d (i + 1))
                              (byte_at d (i + 2)) in
         (totalBrightness + lum, (count + 1)%Z))
      (for_range 0 (data_length d) 64)
      (num_of_Z 0, 0%Z) in
  let avgBrightness :=
    if (count >? 0)%Z then totalBrightness / num_of_Z count
    else num_of_Z 0 in
  brightness_score avgBrightness.

(** The value [qualityScore] computed inside [assessImageQuality]. *)
Definition qualityScore (img : ImageData) : T :=
  calculateSharpness img * dec 7 10 + calculateBrightness img * dec 3 10.

(** [assessImageQuality(imageData)]; it reads [qualityThreshold] only. *)
Definition assessImageQuality (s : t T) (img : ImageData) : bool :=
  qualityScore img >? qualityThreshold s.

(** [detectMotion(currentImageData)] *)
Definition detectMotion (s : t T) (currentImageData : ImageData)
    : bool * t T :=
  match lastFrame s with
  | None =>
      let s := set_lastFrame s (Some (copyImageData currentImageData)) in
      let s := set_stats s (incr_motionDetected (stats s)) in
      (true, s)
  | Some last =>
      let diff := calculateFrameDifference currentImageData last in
      let s := set_lastFrame s (Some (copyImageData currentImageData)) in
      if diff >? motionThreshold s
      then (true, set_stats s (incr_motionDetected (stats s)))
      else (false, s)
  end.

(** [shouldProcessFrame(frameData)]; [now] is the value returned by
    [Date.now()] during the call.  The function has five [return]
    statements; [shouldProcessFrame_at] also tells which one was
    taken. *)
Definition shouldProcessFrame_at (now : Z) (frameData : FrameData)
    (s : t T) : ReturnSite * t T :=
  if negb (isEnabled s) then (RetDisabled, s)
  else
    let s := set_stats s (incr_framesAnalyzed (stats s)) in
    if (now - lastScanTime s <? scanInterval s)%Z
    then (RetThrottled, set_stats s (incr_framesSkipped (stats s)))
    else
      let '(moved, s) := detectMotion s (imageData frameData) in
      if negb moved
      then (RetNoMotion, set_stats s (incr_framesSkipped (stats s)))
      else
        if negb (assessImageQuality s (imageData frameData))
        then (RetLowQuality, set_stats s (incr_framesSkipped (stats s)))
        else
          let s := set_lastScanTime s now in
          let s := set_stats s (incr_qualityPassed (stats s)) in
          (RetAdmitted, s).

Definition shouldProcessFrame (now : Z) (frameData : FrameData) (s : t T)
    : bool * t T :=
  let '(site, s) := shouldProcessFrame_at now frameData s in
  (returned site, s).

(** The detection loop calling [shouldProcessFrame] on one frame after
    another: the time and return site of every call, and the final
    state. *)
Fixpoint run_frames (frames : list (Z * FrameData)) (s : t T)
    : list (Z * ReturnSite) * t T :=
  match frames with
  | [] => ([], s)
  | (now, frameData) :: rest =>
      let '(site, s) := shouldProcessFrame_at now frameData s in
      let '(log, s) := run_frames rest s in
      ((now, site) :: log, s)
  end.

(** The five ways through [shouldProcessFrame], each with the state it
    leaves. *)
Inductive step_spec (now : Z) (f : FrameData) (s : t T)
    : ReturnSite -> t T -> Prop :=
| StepDisabled :
    isEnabled s = false ->
    step_spec now f s RetDisabled s
| StepThrottled :
    isEnabled s = true ->
    now - lastScanTime s < scanInterval s ->
    step_spec now f s RetThrottled
      (set_stats s (incr_framesSkipped (incr_framesAnalyzed (stats s))))
| StepNoMotion s1 :
    isEnabled s = true ->
    now - lastScanTime s >= scanInterval s ->
    detectMotion (set_stats s (incr_framesAnalyzed (stats s)))
                 (imageData f) = (false, s1) ->
    step_spec now f s RetNoMotion
      (set_stats s1 (incr_framesSkipped (stats s1)))
| StepLowQuality s1 :
    isEnabled s = true ->
    now - lastScanTime s >= scanInterval s ->
    detectMotion (set_stats s (incr_framesAnalyzed (stats s)))
                 (imageData f) = (true, s1) ->
    assessImageQuality s1 (imageData f) = false ->
    step_spec now f s RetLowQuality
      (set_stats s1 (incr_framesSkipped (stats s1)))
| StepAdmitted s1 :
    isEnabled s = true ->
    now - lastScanTime s >= scanInterval s ->
    detectMotion (set_stats s (incr_framesAnalyzed (stats s)))
                 (imageData f) = (true, s1) ->
    assessImageQuality s1 (imageData f) = true ->
    step_spec now f s RetAdmitted
      (set_stats (set_lastScanTime s1 now)
                 (incr_qualityPassed (stats s1))).

(** The frame got past the time-based throttling. *)
Definition past_throttle (site : ReturnSite) : bool :=
  match site with
  | RetNoMotion | RetLowQuality | RetAdmitted => true
  | RetDisabled | RetThrottled => false
  end.

Definition stats_consistent (st : Stats) : Prop :=
  framesAnalyzed st = (framesSkipped st + qualityPassed st)%Z.

(** [setEnabled(enabled)] *)
Definition setEnabled (enabled : bool) (s : t T) : t T :=
  {| lastFrame := lastFrame s; lastScanTime := lastScanTime s;
     isEnabled := enabled; motionThreshold := motionThreshold s;
     qualityThreshold := qualityThreshold s;
     scanInterval := scanInterval s; stats := stats s |}.

(** [reset()] *)
Definition reset (s : t T) : t T :=
  {| lastFrame := None; lastScanTime := 0;
     isEnabled := isEnabled s; motionThreshold := motionThreshold s;
     qualityThreshold := qualityThreshold s;
     scanInterval := scanInterval s; stats := zero_stats |}.

(** The argument of [updateSettings]: each property is a value or
    [undefined]. *)
Record Settings : Type := {
  new_motionThreshold : option T;
  new_qualityThreshold : option T;
  new_scanInterval : option Z
}.

(** [updateSettings(settings)] *)
Definition updateSettings (settings : Settings) (s : t T) : t T :=
  let s :=
    match new_motionThreshold settings with
    | Some v =>
        {| lastFrame := lastFrame s; lastScanTime := lastScanTime s;
           isEnabled := isEnabled s; motionThreshold := v;
           qualityThreshold := qualityThreshold s;
           scanInterval := scanInterval s; stats := stats s |}
    | None => s
    end in
  let s :=
    match new_qualityThreshold settings with
    | Some v =>
        {| lastFrame := lastFrame s; lastScanTime := lastScanTime s;
           isEnabled := isEnabled s; motionThreshold := motionThreshold s;
           qualityThreshold := v;
           scanInterval := scanInterval s; stats := stats s |}
    | None => s
    end in
  match new_scanInterval settings with
  | Some v =>
      {| lastFrame := lastFrame s; lastScanTime := lastScanTime s;
         isEnabled := isEnabled s; motionThreshold := motionThreshold s;
         qualityThreshold := qualityThreshold s;
         scanInterval := v; stats := stats s |}
  | None => s
  end.

End WithNumber.

Arguments Settings T : clear implicits.

End SmartDetection.

(* ================================================================== *)
(** ** The Rekognition wrapper *)

(** A JavaScript [Map] with string keys, as the list of its entries in
    iteration order, which is insertion order: [set] on a present key
    replaces the value where it stands, [set] on an absent key appends,
    and [delete] drops the entry of a key.  A key occurs at most once
    ([wf]). *)
Module JSMap.

Section WithValue.
Context {V : Type}.

Definition t : Type := list (string * V).

Definition empty : t := [].

Definition size (m : t) : nat := List.length m.

Fixpoint get (k : string) (m : t) : option V :=
  match m with
  | [] => None
  | (k', v) :: m' => if String.eqb k k' then Some v else get k m'
  end.

Fixpoint set (k : string) (v : V) (m : t) : t :=
  match m with
  | [] => [(k, v)]
  | (k', v') :: m' =>
      if String.eqb k k' then (k', v) :: m' else (k', v') :: set k v m'
  end.

Fixpoint delete (k : string) (m : t) : t :=
  match m with
  | [] => []
  | (k', v') :: m' =>
      if String.eqb k k' then delete k m' else (k', v') :: delete k m'
  end.

Definition keys (m : t) : list string := List.map fst m.

(** [m.keys().next().value] *)
Definition first_key (m : t) : option string :=
  match m with
  | [] => None
  | (k, _) :: _ => Some k
  end.

Definition wf (m : t) : Prop := NoDup (keys m).

End WithValue.

Arguments t V : clear implicits.

End JSMap.

Module RekognitionService.

Record BoundingBox : Type := {
  left : float; top : float; bb_width : float; bb_height : float
}.

Record Detection : Type := {
  name : string;
  confidence : float;
  boundingBox : option BoundingBox;
  timestamp : Z
}.

(** The service's answer, as far as the wrapper reads it. *)
Record Geometry : Type := { BoundingBox_ : option BoundingBox }.

Record CustomLabel : Type := {
  Name : string;
  Confidence : float;
  Geometry_ : option Geometry
}.

Record DetectCustomLabelsResponse : Type := {
  CustomLabels : option (list CustomLabel)
}.

Record Params : Type := {
  Image_Bytes : list byte;
  ModelArn : string;
  MinConfidence : float
}.

(** A thrown value, as far as the [catch] block reads it.  [code] is
    [None] when the value has no string-valued [code]. *)
Record JsError : Type := {
  code : option string;
  statusCode : option Z;
  message : option string
}.

Record CacheEntry : Type := {
  entry_data : list Detection;
  entry_timestamp : Z
}.

Record Stats : Type := {
  apiCalls : Z;
  detections : Z;
  errors : Z;
  avgConfidence : float
}.

Record t : Type := {
  isInitialized : bool;
  modelArn : string;
  confidenceThreshold : float;
  maxRetries : Z;
  stats : Stats;
  detectionCache : JSMap.t CacheEntry;
  cacheTimeout : Z
}.

(** What the wrapper does to its surroundings. *)
Inductive Event : Type :=
| EvCall (p : Params)        (* [rekognition.detectCustomLabels(params)] *)
| EvDelay (ms : Z).          (* [delay(ms)] *)

(** The surroundings: the clock read by [Date.now()], the number of
    remote calls issued so far, and the events in the order they
    happened.  Time passes in [delay]. *)
Record World : Type := {
  clock : Z;
  calls : nat;
  trace : list Event
}.

Definition zero_stats : Stats :=
  {| apiCalls := 0; detections := 0; errors := 0; avgConfidence := 0%float |}.

(** [constructor()], with the values read from [CONFIG]. *)
Definition constructor (MODEL_ARN : string) (CONFIDENCE_THRESHOLD : float)
    (MAX_RETRIES CACHE_DURATION : Z) : t :=
  {| isInitialized := false;
     modelArn := MODEL_ARN;
     confidenceThreshold := CONFIDENCE_THRESHOLD;
     maxRetries := MAX_RETRIES;
     stats := zero_stats;
     detectionCache := JSMap.empty;
     cacheTimeout := CACHE_DURATION |}.

(** [initialize()], when the credentials are obtained. *)
Definition initialize (s : t) : t :=
  {| isInitialized := true; modelArn := modelArn s;
     confidenceThreshold := confidenceThreshold s;
     maxRetries := maxRetries s; stats := stats s;
     detectionCache := detectionCache s; cacheTimeout := cacheTimeout s |}.

Definition set_stats (s : t) (st : Stats) : t :=
  {| isInitialized := isInitialized s; modelArn := modelArn s;
     confidenceThreshold := confidenceThreshold s;
     maxRetries := maxRetries s; stats := st;
     detectionCache := detectionCache s; cacheTimeout := cacheTimeout s |}.

Definition set_cache (s : t) (c : JSMap.t CacheEntry) : t :=
  {| isInitialized := isInitialized s; modelArn := modelArn s;
     confidenceThreshold := confidenceThreshold s;
     maxRetries := maxRetries s; stats := stats s;
     detectionCache := c; cacheTimeout := cacheTimeout s |}.

Definition incr_apiCalls (st : Stats) : Stats :=
  {| apiCalls := apiCalls st + 1; detections := detections st;
     errors := errors st; avgConfidence := avgConfidence st |}.

Definition incr_errors (st : Stats) : Stats :=
  {| apiCalls := apiCalls st; detections := detections st;
     errors := errors st + 1; avgConfidence := avgConfidence st |}.

Definition record_detections (st : Stats) (avg : float) : Stats :=
  {| apiCalls := apiCalls st; detections := detections st + 1;
     errors := errors st; avgConfidence := avg |}.

(** ToInt32, the wrap-around of the bitwise operators [<<] and [&]. *)
Definition toInt32 (z : Z) : Z := (z + 2 ^ 31) mod 2 ^ 32 - 2 ^ 31.

(** The loop of [generateCacheKey]:
    [hash = ((hash << 5) - hash) + char; hash = hash & hash]. *)
Fixpoint hash_chars (hash : Z) (str : string) : Z :=
  match str with
  | EmptyString => hash
  | String c rest =>
      let char := Z.of_N (N_of_ascii c) in
      let hash := (toInt32 (toInt32 hash * 2 ^ 5) - hash) + char in
      let hash := toInt32 hash in
      hash_chars hash rest
  end.

(** [generateCacheKey(imageDataUrl)] *)
Definition generateCacheKey (imageDataUrl : string) : string :=
  let str := String.substring 0 1000 imageDataUrl in
  NilZero.string_of_int (Z.to_int (hash_chars 0 str)).

(** [getFromCache(key)] at time [now]: the cached detections or [None]
    for [null], and the cache afterwards. *)
Definition getFromCache (now : Z) (key : string) (s : t)
    : option (list Detection) * t :=
  match JSMap.get key (detectionCache s) with
  | Some cached =>
      if now - entry_timestamp cached <? cacheTimeout s
      then (Some (entry_data cached), s)
      else (None, set_cache s (JSMap.delete key (detectionCache s)))
  | None => (None, s)
  end.

(** [cacheResult(key, data)] at time [now]. *)
Definition cacheResult (now : Z) (key : string) (data : list Detection)
    (s : t) : t :=
  let cache := detectionCache s in
  let cache :=
    if (50 <? JSMap.size cache)%nat
    then match JSMap.first_key cache with
         | Some firstKey => JSMap.delete firstKey cache
         | None => cache
         end
    else cache in
  set_cache s
    (JSMap.set key {| entry_data := data; entry_timestamp := now |} cache).

(** The array [retryableCodes] of [isRetryableError]. *)
Definition retryableCodes : list string :=
  ["ThrottlingException"; "InternalServerError";
   "ServiceUnavailableException"; "RequestTimeout"]%string.

Definition code_is (error : JsError) (c : string) : bool :=
  match code error with
  | Some c' => String.eqb c' c
  | None => false
  end.

(** [isRetryableError(error)] *)
Definition isRetryableError (error : JsError) : bool :=
  existsb (code_is error) retryableCodes
  || match statusCode error with
     | Some sc => sc >=? 500
     | None => false
     end
  || code_is error "NetworkingError"%string.

(** [handleRekognitionError(error)]: the message of the [Error] built. *)
Definition handleRekognitionError (error : JsError) : string :=
  if code_is error "InvalidParameterException"%string
  then "Invalid image format or parameters"%string
  else if code_is error "ResourceNotFoundException"%string
  then "Custom Labels model not found or not running"%string
  else if code_is error "AccessDeniedException"%string
  then "Access denied. Check AWS credentials and permissions"%string
  else if code_is error "ThrottlingException"%string
  then "Too many requests. Please wait and try again"%string
  else if code_is error "LimitExceededException"%string
  then "Service limit exceeded"%string
  else if code_is error "InternalServerError"%string
  then "AWS service error. Please try again"%string
  else
    let shown :=
      match message error with
      | Some EmptyString | None => None
      | Some m => Some m
      end in
    let shown :=
      match shown, code error with
      | Some m, _ => m
      | None, Some c => c
      | None, None => "undefined"%string
      end in
    String.append "AWS Error: "%string shown.

(** [processDetectionResults(result)] at time [now]. *)
Definition processDetectionResults (now : Z)
    (result : DetectCustomLabelsResponse) : list Detection :=
  match CustomLabels result with
  | None => []
  | Some labels =>
      List.map
        (fun label =>
           {| name := Name label;
              confidence := (Confidence label / 100)%float;
              boundingBox :=
                match Geometry_ label with
                | Some g => BoundingBox_ g
                | None => None
                end;
              timestamp := now |})
        labels
  end.

Fixpoint strip_prefix (p s : string) : option string :=
  match p, s with
  | EmptyString, _ => Some s
  | String a p', String b s' =>
      if Ascii.eqb a b then strip_prefix p' s' else None
  | String _ _, EmptyString => None
  end.

Definition is_lower (c : ascii) : bool :=
  let n := nat_of_ascii c in ((97 <=? n) && (n <=? 122))%nat.

Fixpoint skip_lower (s : string) : string :=
  match s with
  | String c s' => if is_lower c then skip_lower s' else s
  | EmptyString => s
  end.

(** [dataUrl.replace(/^data:image\/[a-z]+;base64,/, '')] *)
Definition strip_data_url_prefix (dataUrl : string) : string :=
  match strip_prefix "data:image/"%string dataUrl with
  | Some rest =>
      let rest' := skip_lower rest in
      if (String.length rest' <? String.length rest)%nat
      then match strip_prefix ";base64,"%string rest' with
           | Some base64Data => base64Data
           | None => dataUrl
           end
      else dataUrl
  | None => dataUrl
  end.

(** One [cacheResult(key, data)] call and the time it is made at. *)
Record CachePut : Type := {
  put_time : Z;
  put_key : string;
  put_data : list Detection
}.

Definition entry_of (p : CachePut) : string * CacheEntry :=
  (put_key p, {| entry_data := put_data p; entry_timestamp := put_time p |}).

(** A series of [cacheResult] calls, in order. *)
Definition put_all (puts : list CachePut) (s : t) : t :=
  fold_left
    (fun s p => cacheResult (put_time p) (put_key p) (put_data p) s)
    puts s.

Section WithEnvironment.

(** The browser's [atob]: the decoded binary string, or the
    exception it throws on malformed input. *)
Variable atob : string -> JsError + string.

(** The remote service: the outcome of the [n]-th call ever issued,
    for the parameters it was given. *)
Variable detectCustomLabels :
  nat -> Params -> JsError + DetectCustomLabelsResponse.

(** [dataUrlToBytes(dataUrl)] *)
Definition dataUrlToBytes (dataUrl : string) : JsError + list byte :=
  let base64Data := strip_data_url_prefix dataUrl in
  match atob base64Data with
  | inl e => inl e
  | inr binaryString => inr (list_byte_of_string binaryString)
  end.

(** [delay(ms)] *)
Definition delay (ms : Z) (w : World) : World :=
  {| clock := clock w + ms; calls := calls w;
     trace := trace w ++ [EvDelay ms] |}.

Definition remote_call (p : Params) (w : World)
    : (JsError + DetectCustomLabelsResponse) * World :=
  (detectCustomLabels (calls w) p,
   {| clock := clock w; calls := S (calls w);
      trace := trace w ++ [EvCall p] |}).

(** The [try] block of [detectLogo]: the value returned or the value
    thrown, with the state it leaves. *)
Definition try_detect (imageDataUrl : string) (s : t) (w : World)
    : (JsError + list Detection) * t * World :=
  let cacheKey := generateCacheKey imageDataUrl in
  let '(cachedResult, s) := getFromCache (clock w) cacheKey s in
  match cachedResult with
  | Some r => (inr r, s, w)
  | None =>
      match dataUrlToBytes imageDataUrl with
      | inl e => (inl e, s, w)
      | inr imageBytes =>
          let params :=
            {| Image_Bytes := imageBytes;
               ModelArn := modelArn s;
               MinConfidence := (confidenceThreshold s * 100)%float |} in
          let s := set_stats s (incr_apiCalls (stats s)) in
          let '(result, w) := remote_call params w in
          match result with
          | inl e => (inl e, s, w)
          | inr result =>
              let dets := processDetectionResults (clock w) result in
              match dets with
              | [] => (inr dets, s, w)
              | _ :: _ =>
                  let s := cacheResult (clock w) cacheKey dets s in
                  let totalConfidence :=
                    fold_left (fun sum det => (sum + confidence det)%float)
                              dets 0%float in
                  let avg :=
                    (totalConfidence
                     / FloatNum.of_Z (Z.of_nat (List.length dets)))%float in
                  let s := set_stats s (record_detections (stats s) avg) in
                  (inr dets, s, w)
              end
          end
      end
  end.

(** [detectLogo(imageDataUrl, retryCount)].  The result is the message
    of the [Error] thrown, or the detections returned.  [fuel] bounds
    the depth of the recursion; [None] means it ran out. *)
Fixpoint detectLogo_rec (fuel : nat) (imageDataUrl : string)
    (retryCount : Z) (s : t) (w : World)
    : option ((string + list Detection) * t * World) :=
  match fuel with
  | O => None
  | S fuel' =>
      if negb (isInitialized s)
      then Some (inl "Rekognition service not initialized"%string, s, w)
      else
        let '(r, s, w) := try_detect imageDataUrl s w in
        match r with
        | inr dets => Some (inr dets, s, w)
        | inl error =>
            let s := set_stats s (incr_errors (stats s)) in
            if (retryCount <? maxRetries s) && isRetryableError error
            then
              let w := delay (1000 * (retryCount + 1)) w in
              detectLogo_rec fuel' imageDataUrl (retryCount + 1) s w
            else Some (inl (handleRekognitionError error), s, w)
        end
  end.

(** [detectLogo(imageDataUrl)], with [retryCount] at its default and
    as much fuel as the deepest recursion needs. *)
Definition detectLogo (imageDataUrl : string) (s : t) (w : World)
    : option ((string + list Detection) * t * World) :=
  detectLogo_rec (S (Z.to_nat (maxRetries s))) imageDataUrl 0 s w.

End WithEnvironment.

(** The parameters [detectLogo] sends for an image. *)
Definition params_of (s : t) (imageBytes : list byte) : Params :=
  {| Image_Bytes := imageBytes;
     ModelArn := modelArn s;
     MinConfidence := (confidenceThreshold s * 100)%float |}.

(** An initial call followed by [retries] retries, the [k]-th of them
    after a delay of [k * baseDelay]. *)
Definition linear_backoff_trace (p : Params) (baseDelay : Z) (retries : nat)
    : list Event :=
  EvCall p
  :: flat_map (fun k => [EvDelay (Z.of_nat k * baseDelay); EvCall p])
              (seq 1 retries).

Definition is_call (ev : Event) : bool :=
  match ev with
  | EvCall _ => true
  | EvDelay _ => false
  end.

Definition count_calls (tr : list Event) : nat :=
  List.length (List.filter is_call tr).

(** The codes the error handling names as not worth retrying. *)
Definition fatalCodes : list string :=
  ["InvalidParameterException"; "ResourceNotFoundException";
   "AccessDeniedException"; "LimitExceededException"]%string.

(** [clearCache()] *)
Definition clearCache (s : t) : t := set_cache s JSMap.empty.

(** [reset()] *)
Definition reset (s : t) : t := clearCache (set_stats s zero_stats).

End RekognitionService.

(* ================================================================== *)
(** ** js/app.js: one pass of the detection loop *)

Module FMFLogoApp.

(** [message.includes(part)] *)
Definition includes (message part : string) : bool :=
  match String.index 0 part message with
  | Some _ => true
  | None => false
  end.

Record Performance : Type := {
  frameCount : Z;
  lastFpsUpdate : Z;
  fps : Z
}.

Record t : Type := {
  isRunning : bool;
  performance : Performance;
  smartDetection : SmartDetection.t float;
  rekognition : RekognitionService.t
}.

(** What a pass asks of the overlay and of the scheduler. *)
Inductive Action : Type :=
| ShowDetection (detections : list RekognitionService.Detection)
| HideDetection
| Cooldown (ms : Z)            (* [await this.delay(ms)] in the [catch] *)
| ScheduleNextFrame.

(** [updateFPS()] at time [now]. *)
Definition updateFPS (now : Z) (p : Performance) : Performance :=
  if now - lastFpsUpdate p >=? 1000
  then {| frameCount := 0; lastFpsUpdate := now; fps := frameCount p |}
  else p.

Section WithEnvironment.

Variable atob : string -> RekognitionService.JsError + string.
Variable detectCustomLabels :
  nat -> RekognitionService.Params ->
  RekognitionService.JsError + RekognitionService.DetectCustomLabelsResponse.

(** [processFrame()] inside [startDetectionLoop], given what
    [camera.captureFrame()] returns: the application and its
    surroundings afterwards, and the actions taken in order. *)
Definition processFrame (captured : option FrameData) (app : t)
    (w : RekognitionService.World)
    : t * RekognitionService.World * list Action :=
  if negb (isRunning app) then (app, w, [])
  else
    match captured with
    | None => (app, w, [ScheduleNextFrame])
    | Some frameData =>
        let now := RekognitionService.clock w in
        let p := performance app in
        let p := {| frameCount := frameCount p + 1;
                    lastFpsUpdate := lastFpsUpdate p; fps := fps p |} in
        let p := updateFPS now p in
        let '(process, sd) :=
          SmartDetection.shouldProcessFrame now frameData
            (smartDetection app) in
        if process
        then
          match RekognitionService.detectLogo atob detectCustomLabels
                  (dataURL frameData) (rekognition app) w with
          | Some (inr detections, rk, w) =>
              let app := {| isRunning := isRunning app; performance := p;
                            smartDetection := sd; rekognition := rk |} in
              match detections with
              | _ :: _ =>
                  (app, w, [ShowDetection detections; ScheduleNextFrame])
              | [] => (app, w, [HideDetection; ScheduleNextFrame])
              end
          | Some (inl message, rk, w) =>
              let app := {| isRunning := isRunning app; performance := p;
                            smartDetection := sd; rekognition := rk |} in
              if includes message "ThrottlingException"
              then
                (app,
                 {| RekognitionService.clock :=
                      RekognitionService.clock w + 2000;
                    RekognitionService.calls := RekognitionService.calls w;
                    RekognitionService.trace := RekognitionService.trace w |},
                 [Cooldown 2000; ScheduleNextFrame])
              else (app, w, [ScheduleNextFrame])
          | None => (app, w, [])
          end
        else
          ({| isRunning := isRunning app; performance := p;
              smartDetection := sd; rekognition := rekognition app |},
           w, [ScheduleNextFrame])
    end.

End WithEnvironment.

End FMFLogoApp.

(* ================================================================== *)
(** ** Concrete frames and settings *)

Module Fixtures.

(** One RGBA pixel of grey level [v]. *)
Definition px (v : byte) : list byte := [v; v; v; xff].

(** A single black pixel. *)
Definition black1 : ImageData :=
  {| data := px x00; width := 1; height := 1 |}.

(** Three rows of black, black, white: a vertical edge. *)
Definition edge3 : ImageData :=
  {| data := px x00 ++ px x00 ++ px xff
             ++ px x00 ++ px x00 ++ px xff
             ++ px x00 ++ px x00 ++ px xff;
     width := 3; height := 3 |}.

(** Three rows of white, black, black: the mirrored edge. *)
Definition edge3m : ImageData :=
  {| data := px xff ++ px x00 ++ px x00
             ++ px xff ++ px x00 ++ px x00
             ++ px xff ++ px x00 ++ px x00;
     width := 3; height := 3 |}.

Definition frame_of (img : ImageData) : FrameData :=
  {| imageData := img; dataURL := "data:image/jpeg;base64,AAAA"%string |}.

(** [new SmartDetection()] under the shipped [CONFIG.DETECTION]:
    [MOTION_THRESHOLD: 0.1], [QUALITY_THRESHOLD: 0.7],
    [SCAN_INTERVAL: 2000]. *)
Definition fresh : SmartDetection.t float :=
  SmartDetection.constructor (dec 1 10) (dec 7 10) 2000.

(** [new RekognitionService()] under the shipped [CONFIG], initialised:
    [CONFIDENCE_THRESHOLD: 0.8], [MAX_RETRIES: 3],
    [CACHE_DURATION: 5000]. *)
Definition service : RekognitionService.t :=
  RekognitionService.initialize
    (RekognitionService.constructor "arn:aws:rekognition:model"%string
       (dec 8 10) 3 5000).

Definition logo : RekognitionService.Detection :=
  {| RekognitionService.name := "Logo"%string;
     RekognitionService.confidence := dec 85 100;
     RekognitionService.boundingBox := None;
     RekognitionService.timestamp := 0 |}.

(** [n] puts under the keys ["0"], ["1"], ..., made at times 0, 1, ... *)
Definition puts_upto (n : nat) : list RekognitionService.CachePut :=
  List.map
    (fun i =>
       {| RekognitionService.put_time := Z.of_nat i;
          RekognitionService.put_key :=
            NilZero.string_of_int (Z.to_int (Z.of_nat i));
          RekognitionService.put_data := [logo] |})
    (seq 0 n).

(** A data URL, an [atob] that decodes it, and two ways for the service
    to fail. *)
Definition jpeg_url : string := "data:image/jpeg;base64,AAAA"%string.

Definition atob_ok (base64Data : string)
    : RekognitionService.JsError + string :=
  inr "abc"%string.

Definition throttled : RekognitionService.JsError :=
  {| RekognitionService.code := Some "ThrottlingException"%string;
     RekognitionService.statusCode := Some 400;
     RekognitionService.message := Some "Rate exceeded"%string |}.

Definition access_denied : RekognitionService.JsError :=
  {| RekognitionService.code := Some "AccessDeniedException"%string;
     RekognitionService.statusCode := Some 400;
     RekognitionService.message := Some "Not authorized"%string |}.

Definition always_failing (e : RekognitionService.JsError) (n : nat)
    (p : RekognitionService.Params)
    : RekognitionService.JsError
      + RekognitionService.DetectCustomLabelsResponse :=
  inl e.

Definition world0 : RekognitionService.World :=
  {| RekognitionService.clock := 0;
     RekognitionService.calls := 0;
     RekognitionService.trace := [] |}.

End Fixtures.

(** The loops, the hash and the prefix removal on small inputs. *)
Example for_range_stride16 : for_range 0 36 16 = [0; 16; 32].
Proof. reflexivity. Qed.

Example for_range_inner_rows : for_range 1 (3 - 1) 1 = [1].
Proof. reflexivity. Qed.

Example for_range_empty : for_range 1 (1 - 1) 4 = [].
Proof. reflexivity. Qed.

Example generateCacheKey_abc :
  RekognitionService.generateCacheKey "abc" = "96354"%string.
Proof. reflexivity. Qed.

Example generateCacheKey_wraps :
  RekognitionService.generateCacheKey Fixtures.jpeg_url
  = "-324340786"%string.
Proof. vm_compute. reflexivity. Qed.

Example strip_data_url_prefix_jpeg :
  RekognitionService.strip_data_url_prefix Fixtures.jpeg_url = "AAAA"%string.
Proof. reflexivity. Qed.

Example strip_data_url_prefix_other :
  RekognitionService.strip_data_url_prefix "data:text/plain;base64,AAAA"
  = "data:text/plain;base64,AAAA"%string.
Proof. reflexivity. Qed.

Example isRetryableError_examples :
  RekognitionService.isRetryableError Fixtures.throttled = true /\
  RekognitionService.isRetryableError Fixtures.access_denied = false.
Proof. split; reflexivity. Qed.

(* ================================================================== *)
(** * Properties of the admission pipeline *)

Section AdmissionProperties.

Context {T : Type} `{JSNumber T}.

Import SmartDetection.

Lemma copyImageData_eq (img : ImageData) : copyImageData img = img.
Proof. destruct img; reflexivity. Qed.

(** [detectMotion] writes the baseline and the motion counter only. *)
Lemma detectMotion_frame (s : t T) (img : ImageData) :
  let s' := snd (detectMotion s img) in
  lastFrame s' = Some (copyImageData img) /\
  lastScanTime s' = lastScanTime s /\
  isEnabled s' = isEnabled s /\
  scanInterval s' = scanInterval s /\
  motionThreshold s' = motionThreshold s /\
  qualityThreshold s' = qualityThreshold s /\
  framesAnalyzed (stats s') = framesAnalyzed (stats s) /\
  framesSkipped (stats s') = framesSkipped (stats s) /\
  qualityPassed (stats s') = qualityPassed (stats s).
Proof.
  unfold detectMotion.
  destruct (lastFrame s) as [last|]; simpl.
  - destruct (nltb _ _); simpl; repeat split; reflexivity.
  - repeat split; reflexivity.
Qed.

Lemma shouldProcessFrame_at_spec (now : Z) (f : FrameData) (s : t T) :
  step_spec now f s (fst (shouldProcessFrame_at now f s))
                    (snd (shouldProcessFrame_at now f s)).
Proof.
  unfold shouldProcessFrame_at.
  destruct (isEnabled s) eqn:En; simpl.
  2: { now apply StepDisabled. }
  destruct (Z.ltb_spec (now - lastScanTime s) (scanInterval s)) as [Hlt|Hge].
  { exact (StepThrottled now f s En Hlt). }
  destruct (detectMotion _ _) as [moved s1] eqn:Hm.
  destruct moved; simpl.
  - destruct (assessImageQuality s1 (imageData f)) eqn:Hq; simpl.
    + eapply StepAdmitted; eauto; lia.
    + eapply StepLowQuality; eauto; lia.
  - eapply StepNoMotion; eauto; lia.
Qed.

(** Bring in what [detectMotion] preserved, for the call at hand. *)
Ltac motion_frame :=
  match goal with
  | Hm : detectMotion ?a ?b = (_, _) |- _ =>
      let D := fresh "D" in
      pose proof (detectMotion_frame a b) as D; rewrite Hm in D;
      simpl in D; decompose [and] D; clear D
  end.

Ltac step_cases St :=
  inversion St; subst; simpl; try motion_frame;
  repeat match goal with
         | E : isEnabled _ = _ |- _ => rewrite E in *; clear E
         end;
  simpl.

Lemma step_isEnabled now f s site s' :
  step_spec now f s site s' -> isEnabled s' = isEnabled s.
Proof. intros St; step_cases St; congruence. Qed.

Lemma step_scanInterval now f s site s' :
  step_spec now f s site s' -> scanInterval s' = scanInterval s.
Proof. intros St; step_cases St; congruence. Qed.

(** What a call does to [lastScanTime]. *)
Lemma step_lastScanTime now f s site s' :
  step_spec now f s site s' ->
  lastScanTime s' = if returned site && isEnabled s then now
                    else lastScanTime s.
Proof. intros St; step_cases St; congruence. Qed.

(** What a call does to the three counters of the consistency equation. *)
Lemma step_stats_consistent now f s site s' :
  step_spec now f s site s' ->
  stats_consistent (stats s) -> stats_consistent (stats s').
Proof.
  unfold stats_consistent. intros St; step_cases St; lia.
Qed.

(** C3, as the code has it.  On an enabled pipeline a frame gets past
    the time-based throttling exactly when
    [now - lastScanTime >= scanInterval].  [lastScanTime] becomes [now]
    when the frame is admitted, that is when it also passes the motion
    and the quality check; on every other return it keeps its value. *)
Theorem throttle_gate_contract (now : Z) (f : FrameData) (s : t T) :
  isEnabled s = true ->
  let site := fst (shouldProcessFrame_at now f s) in
  let s' := snd (shouldProcessFrame_at now f s) in
  (past_throttle site = true <-> now - lastScanTime s >= scanInterval s) /\
  (site = RetAdmitted -> lastScanTime s' = now) /\
  (site <> RetAdmitted -> lastScanTime s' = lastScanTime s).
Proof.
  intros En. cbv zeta.
  pose proof (shouldProcessFrame_at_spec now f s) as St.
  destruct (shouldProcessFrame_at now f s) as [site s']; simpl in *.
  pose proof (step_lastScanTime _ _ _ _ _ St) as L. rewrite En in L.
  repeat split.
  - inversion St; subst; simpl; intros; first [lia | congruence].
  - inversion St; subst; simpl; intros;
      first [reflexivity | congruence | exfalso; lia].
  - intros E. rewrite E in L. exact L.
  - intros NE. destruct site; simpl in L; try congruence.
    inversion St; congruence.
Qed.

(** C5, as the code has it.  A disabled pipeline returns [true] for
    every frame and leaves the whole state as it was: the baseline,
    [lastScanTime] and every counter, [framesAnalyzed] included. *)
Theorem disabled_pipeline_is_identity (now : Z) (f : FrameData) (s : t T) :
  isEnabled s = false ->
  shouldProcessFrame now f s = (true, s).
Proof.
  intros En. unfold shouldProcessFrame, shouldProcessFrame_at.
  rewrite En. reflexivity.
Qed.

(** C8.  When the time-based throttling rejects a frame on an enabled
    pipeline, [shouldProcessFrame] returns [false] from the throttling
    branch; [framesSkipped] (and [framesAnalyzed]) grow by one and
    nothing else changes: [motionDetected] and [qualityPassed] keep
    their values, the baseline [lastFrame] is the same, and a motion
    check run afterwards on any frame gives the verdict and the
    baseline it would have given before. *)
Theorem throttle_rejection_short_circuits
    (now : Z) (f : FrameData) (s : t T) :
  isEnabled s = true ->
  now - lastScanTime s < scanInterval s ->
  let s' := snd (shouldProcessFrame_at now f s) in
  fst (shouldProcessFrame_at now f s) = RetThrottled /\
  fst (shouldProcessFrame now f s) = false /\
  s' = set_stats s (incr_framesSkipped (incr_framesAnalyzed (stats s))) /\
  framesSkipped (stats s') = framesSkipped (stats s) + 1 /\
  motionDetected (stats s') = motionDetected (stats s) /\
  qualityPassed (stats s') = qualityPassed (stats s) /\
  lastFrame s' = lastFrame s /\
  lastScanTime s' = lastScanTime s /\
  forall img,
    fst (detectMotion s' img) = fst (detectMotion s img) /\
    lastFrame (snd (detectMotion s' img))
    = lastFrame (snd (detectMotion s img)).
Proof.
  intros En Hlt s'.
  assert (E : shouldProcessFrame_at now f s
              = (RetThrottled,
                 set_stats s
                   (incr_framesSkipped (incr_framesAnalyzed (stats s))))).
  { unfold shouldProcessFrame_at. rewrite En. simpl.
    destruct (Z.ltb_spec (now - lastScanTime s) (scanInterval s));
      [reflexivity | lia]. }
  unfold s', shouldProcessFrame. rewrite E. simpl.
  repeat split; try reflexivity.
  - unfold detectMotion; simpl.
    destruct (lastFrame s); simpl; [|reflexivity].
    destruct (nltb _ _); reflexivity.
  - unfold detectMotion; simpl.
    destruct (lastFrame s); simpl; [|reflexivity].
    destruct (nltb _ _); reflexivity.
Qed.

(** C9.  After every call of [detectMotion] the baseline is a copy of
    the frame just examined, whatever the verdict; on an empty baseline
    the verdict is [true]; and whenever [shouldProcessFrame] gets as far
    as the motion check, the baseline it leaves is a copy of that
    call's frame, also when the frame then fails the quality check. *)
Theorem baseline_replaced_on_every_motion_check :
  (forall (s : t T) (img : ImageData),
      lastFrame (snd (detectMotion s img)) = Some (copyImageData img) /\
      copyImageData img = img) /\
  (forall (s : t T) (img : ImageData),
      lastFrame s = None -> fst (detectMotion s img) = true) /\
  (forall (now : Z) (f : FrameData) (s : t T),
      past_throttle (fst (shouldProcessFrame_at now f s)) = true ->
      lastFrame (snd (shouldProcessFrame_at now f s))
      = Some (copyImageData (imageData f))).
Proof.
  split; [|split].
  - intros s img. split; [|apply copyImageData_eq].
    apply (detectMotion_frame s img).
  - intros s img E. unfold detectMotion. rewrite E. reflexivity.
  - intros now f s.
    pose proof (shouldProcessFrame_at_spec now f s) as St.
    inversion St; subst; simpl; try discriminate; intros _;
      match goal with
      | Hm : detectMotion ?a ?b = (_, _) |- _ =>
          pose proof (detectMotion_frame a b) as D; rewrite Hm in D;
          simpl in D; tauto
      end.
Qed.

Lemma run_frames_stats_consistent (frames : list (Z * FrameData)) :
  forall s : t T,
    stats_consistent (stats s) ->
    stats_consistent (stats (snd (run_frames frames s))).
Proof.
  induction frames as [|[now f] rest IH]; intros s Inv; simpl; [exact Inv|].
  pose proof (shouldProcessFrame_at_spec now f s) as St.
  destruct (shouldProcessFrame_at now f s) as [site s1]; simpl in St.
  specialize (IH s1 (step_stats_consistent _ _ _ _ _ St Inv)).
  destruct (run_frames rest s1) as [log s2]; simpl in *. exact IH.
Qed.

(** C10.  Starting from a newly constructed pipeline, or from one that
    was just reset, [framesAnalyzed = framesSkipped + qualityPassed]
    holds after any number of [shouldProcessFrame] calls. *)
Theorem stats_consistency :
  (forall (mt qt : T) (si : Z) (frames : list (Z * FrameData)),
      stats_consistent
        (stats (snd (run_frames frames (constructor mt qt si))))) /\
  (forall (s : t T) (frames : list (Z * FrameData)),
      stats_consistent (stats (snd (run_frames frames (reset s))))).
Proof.
  split; intros; apply run_frames_stats_consistent; reflexivity.
Qed.

(** Every admitted frame of a run comes at least [scanInterval] after
    the [lastScanTime] the run started with. *)
Lemma admitted_after_lastScanTime (frames : list (Z * FrameData)) :
  forall (s : t T) (t1 : Z) (site : ReturnSite),
    isEnabled s = true ->
    0 <= scanInterval s ->
    In (t1, site) (fst (run_frames frames s)) ->
    returned site = true ->
    t1 - lastScanTime s >= scanInterval s.
Proof.
  induction frames as [|[now f] rest IH]; intros s t1 site En Pos Hin Hr;
    simpl in Hin; [contradiction|].
  pose proof (shouldProcessFrame_at_spec now f s) as St.
  destruct (shouldProcessFrame_at now f s) as [site1 s1]; simpl in St.
  pose proof (step_lastScanTime _ _ _ _ _ St) as L.
  pose proof (step_isEnabled _ _ _ _ _ St) as E1.
  pose proof (step_scanInterval _ _ _ _ _ St) as I1.
  rewrite En in L, E1.
  assert (G : returned site1 = true -> now - lastScanTime s >= scanInterval s).
  { inversion St; subst; simpl; intros; try lia; congruence. }
  destruct (run_frames rest s1) as [log s2] eqn:R; simpl in Hin.
  destruct Hin as [Heq|Hin].
  - inversion Heq; subst. auto.
  - assert (Hin' : In (t1, site) (fst (run_frames rest s1)))
      by (rewrite R; exact Hin).
    specialize (IH s1 t1 site E1 ltac:(lia) Hin' Hr).
    rewrite I1 in IH.
    destruct (returned site1); simpl in L; [specialize (G eq_refl)|]; lia.
Qed.

(** C4, as the code has it.  On an enabled pipeline, any two frames for
    which [shouldProcessFrame] returned [true], at times [t1 < t2] of
    one run, are at least [scanInterval] apart. *)
Theorem admitted_frames_are_spaced (frames : list (Z * FrameData)) :
  forall (s : t T) (t1 t2 : Z) (site1 site2 : ReturnSite),
    isEnabled s = true ->
    In (t1, site1) (fst (run_frames frames s)) ->
    In (t2, site2) (fst (run_frames frames s)) ->
    returned site1 = true ->
    returned site2 = true ->
    t1 < t2 ->
    t2 - t1 >= scanInterval s.
Proof.
  intros s t1 t2 site1 site2 En H1 H2 R1 R2 Hlt.
  destruct (Z.lt_ge_cases (scanInterval s) 0) as [Neg|Pos]; [lia|].
  revert s En Pos H1 H2.
  induction frames as [|[now f] rest IH]; intros s En Pos H1 H2;
    simpl in H1; [contradiction|].
  simpl in H2.
  pose proof (shouldProcessFrame_at_spec now f s) as St.
  destruct (shouldProcessFrame_at now f s) as [site s1]; simpl in St.
  pose proof (step_lastScanTime _ _ _ _ _ St) as L.
  pose proof (step_isEnabled _ _ _ _ _ St) as E1.
  pose proof (step_scanInterval _ _ _ _ _ St) as I1.
  rewrite En in L, E1.
  pose proof (admitted_after_lastScanTime rest s1) as A.
  destruct (run_frames rest s1) as [log s2] eqn:R; simpl in H1, H2, A.
  rewrite I1 in A.
  destruct H1 as [Q1|H1]; destruct H2 as [Q2|H2].
  - inversion Q1; inversion Q2; subst; lia.
  - inversion Q1; subst. rewrite R1 in L; simpl in L.
    specialize (A t2 site2 E1 Pos H2 R2). lia.
  - inversion Q2; subst. rewrite R2 in L; simpl in L.
    specialize (A t1 site1 E1 Pos H1 R1). lia.
  - rewrite <- I1. apply (IH s1); try assumption.
    + rewrite I1; exact Pos.
    + rewrite R; exact H1.
    + rewrite R; exact H2.
Qed.

End AdmissionProperties.

(* ------------------------------------------------------------------ *)
(** ** The pipeline on concrete frames

    The runs below use binary64 arithmetic, the shipped settings and the
    frames of [Fixtures]. *)

Section AdmissionRuns.

Import SmartDetection Fixtures.

(** C3 as stated fails: at time 5000 a freshly constructed pipeline lets
    a black frame past the throttling (5000 - 0 >= 2000), the frame
    then fails the quality check, and [lastScanTime] is still 0. *)
Lemma throttle_pass_keeps_lastScanTime :
  let r := shouldProcessFrame_at 5000 (frame_of black1) fresh in
  isEnabled fresh = true /\
  5000 - lastScanTime fresh >= scanInterval fresh /\
  fst r = RetLowQuality /\
  past_throttle (fst r) = true /\
  lastScanTime (snd r) = 0 /\
  lastScanTime (snd r) <> 5000.
Proof.
  cbv zeta. repeat split; try (vm_compute; congruence).
Qed.

Lemma throttle_gate_contract_witness :
  isEnabled fresh = true /\
  (past_throttle (fst (shouldProcessFrame_at 5000 (frame_of edge3) fresh))
   = true <-> 5000 - lastScanTime fresh >= scanInterval fresh) /\
  (fst (shouldProcessFrame_at 5000 (frame_of edge3) fresh) = RetAdmitted ->
   lastScanTime (snd (shouldProcessFrame_at 5000 (frame_of edge3) fresh))
   = 5000) /\
  (fst (shouldProcessFrame_at 5000 (frame_of edge3) fresh) <> RetAdmitted ->
   lastScanTime (snd (shouldProcessFrame_at 5000 (frame_of edge3) fresh))
   = lastScanTime fresh).
Proof.
  split; [reflexivity|].
  apply (throttle_gate_contract 5000 (frame_of edge3) fresh).
  reflexivity.
Defined.

(** C4 as stated fails: two black frames one millisecond apart both get
    past the throttling, the first failing the quality check and the
    second the motion check, with [scanInterval] at 2000. *)
Lemma throttle_passing_frames_not_spaced :
  let frames := [(5000, frame_of black1); (5001, frame_of black1)] in
  let log := fst (run_frames frames fresh) in
  isEnabled fresh = true /\
  log = [(5000, RetLowQuality); (5001, RetNoMotion)] /\
  past_throttle RetLowQuality = true /\
  past_throttle RetNoMotion = true /\
  5000 < 5001 /\
  ~ (5001 - 5000 >= scanInterval fresh).
Proof.
  cbv zeta. repeat split; try (vm_compute; congruence).
Qed.

Lemma admitted_frames_are_spaced_witness :
  let frames := [(5000, frame_of edge3); (8000, frame_of edge3m)] in
  fst (run_frames frames fresh)
  = [(5000, RetAdmitted); (8000, RetAdmitted)] /\
  8000 - 5000 >= scanInterval fresh.
Proof.
  cbv zeta. split; [vm_compute; reflexivity|].
  apply (admitted_frames_are_spaced
           [(5000, frame_of edge3); (8000, frame_of edge3m)]
           fresh 5000 8000 RetAdmitted RetAdmitted).
  - reflexivity.
  - vm_compute. left. reflexivity.
  - vm_compute. right. left. reflexivity.
  - reflexivity.
  - reflexivity.
  - lia.
Defined.

(** C5 as stated fails: a disabled pipeline returns [true] and does not
    count the frame; [framesAnalyzed] stays at 0. *)
Lemma disabled_pipeline_counts_nothing :
  let s := setEnabled false fresh in
  let r := shouldProcessFrame 5000 (frame_of black1) s in
  isEnabled s = false /\
  fst r = true /\
  framesAnalyzed (stats (snd r)) = 0 /\
  framesAnalyzed (stats (snd r)) <> framesAnalyzed (stats s) + 1.
Proof.
  cbv zeta. repeat split; try (vm_compute; congruence).
Qed.

Lemma disabled_pipeline_is_identity_witness :
  isEnabled (setEnabled false fresh) = false /\
  shouldProcessFrame 5000 (frame_of edge3) (setEnabled false fresh)
  = (true, setEnabled false fresh).
Proof.
  split; [reflexivity|].
  apply (disabled_pipeline_is_identity 5000 (frame_of edge3)
           (setEnabled false fresh)).
  reflexivity.
Defined.

Lemma throttle_rejection_short_circuits_witness :
  isEnabled fresh = true /\
  1500 - lastScanTime fresh < scanInterval fresh /\
  fst (shouldProcessFrame 1500 (frame_of edge3) fresh) = false /\
  lastFrame (snd (shouldProcessFrame_at 1500 (frame_of edge3) fresh))
  = lastFrame fresh.
Proof.
  split; [reflexivity|]. split; [vm_compute; reflexivity|].
  pose proof (throttle_rejection_short_circuits 1500 (frame_of edge3) fresh
                eq_refl eq_refl) as W.
  cbv zeta in W. split; apply W.
Defined.

Lemma baseline_replaced_witness :
  lastFrame fresh = None /\
  fst (detectMotion fresh edge3) = true /\
  lastFrame (snd (detectMotion fresh edge3)) = Some (copyImageData edge3) /\
  past_throttle (fst (shouldProcessFrame_at 5000 (frame_of black1) fresh))
  = true /\
  lastFrame (snd (shouldProcessFrame_at 5000 (frame_of black1) fresh))
  = Some (copyImageData black1).
Proof.
  pose proof (@baseline_replaced_on_every_motion_check float _) as [A [B C]].
  split; [reflexivity|].
  split; [apply B; reflexivity|].
  split; [apply A|].
  split; [vm_compute; reflexivity|].
  apply (C 5000 (frame_of black1) fresh). vm_compute. reflexivity.
Defined.

End AdmissionRuns.

(* ================================================================== *)
(** * The quality score *)


Lemma in_count_up (n : nat) :
  forall start step i,
    0 < step ->
    In i (count_up n start step) ->
    start <= i < start + Z.of_nat n * step /\ (i - start) mod step = 0.
Proof.
induction n as [|n IH]; intros start step i Hs Hin; simpl in Hin;
  [contradiction|].
destruct Hin as [<-|Hin].
- rewrite Z.sub_diag, Z.mod_0_l by lia. split; [nia|reflexivity].
- destruct (IH _ _ _ Hs Hin) as [Hr Hm]. split; [nia|].
  replace (i - start) with ((i - (start + step)) + 1 * step) by lia.
  rewrite Z.mod_add by lia. exact Hm.
Qed.

(** The indices a [for] loop visits lie in its range, on its stride. *)
Lemma in_for_range (start stop step i : Z) :
  0 < step ->
  In i (for_range start stop step) ->
  start <= i < stop /\ (i - start) mod step = 0.
Proof.
intros Hs Hin. unfold for_range in Hin.
destruct (in_count_up _ _ _ _ Hs Hin) as [Hr Hm]. split; [|exact Hm].
split; [lia|].
set (q := (stop - start + step - 1) / step) in *.
assert (Hq : q * step <= stop - start + step - 1).
{ unfold q. rewrite Z.mul_comm. apply Z.mul_div_le. exact Hs. }
apply Z.mod_divide in Hm; [|lia]. destruct Hm as [k Hk].
destruct (Z.le_gt_cases q 0) as [Hn|Hp].
- replace (Z.to_nat q) with 0%nat in Hr by lia. simpl in Hr. lia.
- rewrite Z2Nat.id in Hr by lia.
  assert (k < q) by nia. nia.
Qed.

(** On a well-formed frame the brightness loop reads inside the buffer:
    every sampled index [i] has [i + 2] within it. *)
Lemma brightness_reads_in_range (img : ImageData) (i : Z) :
  wf_image img ->
  In i (for_range 0 (data_length (data img)) 64) ->
  0 <= i /\ i + 2 < data_length (data img).
Proof.
intros (Hw & Hh & Hlen) Hin.
apply in_for_range in Hin; [|lia]. destruct Hin as [Hr Hm].
unfold data_length in *. rewrite Hlen in *.
apply Z.mod_divide in Hm; [|lia]. destruct Hm as [k Hk].
split; [lia|].
assert (i = 4 * (16 * k)) by lia.
assert (16 * k < width img * height img) by nia.
nia.
Qed.

Section QualityBounds.

Import SmartDetection.

Local Open Scope R_scope.
Local Abbreviation sqrt := R_sqrt.sqrt.



















End QualityBounds.

(* ================================================================== *)
(** * The detection cache *)

Section MapFacts.

Context {V : Type}.
Implicit Types (m : JSMap.t V) (k : string) (v : V).

Lemma map_get_set_same k v m : JSMap.get k (JSMap.set k v m) = Some v.
Proof.
induction m as [|[k' v'] m IH]; simpl.
- rewrite String.eqb_refl. reflexivity.
- destruct (String.eqb k k') eqn:E; simpl; rewrite E; auto.
Qed.

Lemma map_get_delete_same k m : JSMap.get k (JSMap.delete k m) = None.
Proof.
induction m as [|[k' v'] m IH]; simpl; [reflexivity|].
destruct (String.eqb k k') eqn:E; simpl; [|rewrite E]; exact IH.
Qed.

Lemma map_delete_absent k m :
  ~ In k (JSMap.keys m) -> JSMap.delete k m = m.
Proof.
induction m as [|[k' v'] m IH]; simpl; intros N; [reflexivity|].
destruct (String.eqb_spec k k') as [->|_]; [tauto|].
rewrite IH by tauto. reflexivity.
Qed.

Lemma map_set_absent k v m :
  ~ In k (JSMap.keys m) -> JSMap.set k v m = m ++ [(k, v)].
Proof.
induction m as [|[k' v'] m IH]; simpl; intros N; [reflexivity|].
destruct (String.eqb_spec k k') as [->|_]; [tauto|].
rewrite IH by tauto. reflexivity.
Qed.

Lemma map_get_absent k m : ~ In k (JSMap.keys m) -> JSMap.get k m = None.
Proof.
induction m as [|[k' v'] m IH]; simpl; intros N; [reflexivity|].
destruct (String.eqb_spec k k') as [->|_]; [tauto|]. apply IH; tauto.
Qed.

Lemma map_get_present k v m :
  JSMap.wf m -> In (k, v) m -> JSMap.get k m = Some v.
Proof.
unfold JSMap.wf.
induction m as [|[k' v'] m IH]; simpl; intros W Hin; [contradiction|].
inversion W as [|? ? Hn W']; subst.
destruct Hin as [E|Hin].
- inversion E; subst. rewrite String.eqb_refl. reflexivity.
- destruct (String.eqb_spec k k') as [->|_]; [|apply IH; assumption].
  exfalso. apply Hn. change k' with (fst (k', v)). apply in_map. exact Hin.
Qed.

End MapFacts.

(** A queue of at most 51 entries: what the cache is to distinct keys. *)
Definition fifo_push {A : Type} (q : list A) (a : A) : list A :=
  (if (50 <? List.length q)%nat then tl q else q) ++ [a].

Lemma fifo_push_all {A : Type} (l : list A) :
  forall q : list A,
    (List.length q <= 51)%nat ->
    fold_left fifo_push l q
    = skipn (List.length (q ++ l) - 51) (q ++ l).
Proof.
induction l as [|a l IH]; intros q Hq.
- simpl. rewrite app_nil_r.
  replace (List.length q - 51)%nat with 0%nat by lia. reflexivity.
- simpl fold_left.
  replace (q ++ a :: l) with ((q ++ [a]) ++ l)
    by (rewrite <- app_assoc; reflexivity).
  unfold fifo_push at 2.
  destruct (Nat.ltb_spec 50 (List.length q)) as [Hfull|Hroom].
  + destruct q as [|x q']; [simpl in Hfull; lia|]. simpl tl.
    simpl in Hq, Hfull.
    rewrite IH by (rewrite length_app; simpl; lia).
    rewrite !length_app. simpl List.length.
    replace (S (List.length q') + 1 + List.length l - 51)%nat
      with (S (List.length q' + 1 + List.length l - 51)) by lia.
    reflexivity.
  + apply IH. rewrite length_app; simpl; lia.
Qed.

Section CacheProperties.

Import RekognitionService.

(** [cacheResult] with a key the cache does not hold pushes onto the
    queue. *)
Lemma cacheResult_new_key (now : Z) (key : string) (d : list Detection)
    (s : t) :
  JSMap.wf (detectionCache s) ->
  ~ In key (JSMap.keys (detectionCache s)) ->
  detectionCache (cacheResult now key d s)
  = fifo_push (detectionCache s)
      (key, {| entry_data := d; entry_timestamp := now |}).
Proof.
intros W N. unfold cacheResult, fifo_push, JSMap.size. simpl.
destruct (Nat.ltb_spec 50 (List.length (detectionCache s))) as [Hfull|Hroom].
- destruct (detectionCache s) as [|[k0 e0] rest];
    [simpl in Hfull; lia|].
  simpl. rewrite String.eqb_refl.
  inversion W as [|? ? Hn W']; subst.
  rewrite map_delete_absent by exact Hn.
  apply map_set_absent. simpl in N. tauto.
- apply map_set_absent. exact N.
Qed.

Lemma fifo_push_keys_nodup (c : JSMap.t CacheEntry) (k : string)
    (e : CacheEntry) (ks : list string) :
  NoDup (JSMap.keys c ++ k :: ks) ->
  NoDup (JSMap.keys (fifo_push c (k, e)) ++ ks)
  /\ ~ In k (JSMap.keys c) /\ JSMap.wf c.
Proof.
intros ND.
assert (N1 : ~ In k (JSMap.keys c)).
{ apply NoDup_remove_2 in ND. intros Hin. apply ND.
  apply in_or_app. left. exact Hin. }
assert (W : JSMap.wf c) by (apply NoDup_app_remove_r in ND; exact ND).
split; [|split; assumption].
unfold fifo_push, JSMap.keys. rewrite map_app. simpl.
rewrite <- app_assoc. simpl.
destruct (50 <? List.length c)%nat; [|exact ND].
destruct c as [|[k0 e0] rest]; [exact ND|].
simpl in *. inversion ND; assumption.
Qed.

(** A series of puts with distinct keys, none of them in the cache
    already, leaves the cache that pushing them onto the queue gives. *)
Lemma put_all_distinct (puts : list CachePut) :
  forall s : t,
    NoDup (JSMap.keys (detectionCache s) ++ List.map put_key puts) ->
    detectionCache (put_all puts s)
    = fold_left fifo_push (List.map entry_of puts) (detectionCache s)
    /\ cacheTimeout (put_all puts s) = cacheTimeout s.
Proof.
induction puts as [|p puts IH]; intros s ND; [split; reflexivity|].
simpl in ND.
destruct (fifo_push_keys_nodup _ _
            {| entry_data := put_data p; entry_timestamp := put_time p |}
            _ ND) as (ND' & N & W).
pose proof (cacheResult_new_key (put_time p) (put_key p) (put_data p) s W N)
  as Step.
unfold put_all in *. simpl fold_left.
specialize (IH (cacheResult (put_time p) (put_key p) (put_data p) s)).
rewrite Step in IH. destruct (IH ND') as [IHc IHt].
split; [exact IHc | exact IHt].
Qed.

Lemma getFromCache_live (now : Z) (key : string) (e : CacheEntry) (s : t) :
  JSMap.get key (detectionCache s) = Some e ->
  now - entry_timestamp e < cacheTimeout s ->
  getFromCache now key s = (Some (entry_data e), s).
Proof.
intros G L. unfold getFromCache. rewrite G.
destruct (Z.ltb_spec (now - entry_timestamp e) (cacheTimeout s));
  [reflexivity | lia].
Qed.

Lemma getFromCache_absent (now : Z) (key : string) (s : t) :
  JSMap.get key (detectionCache s) = None ->
  getFromCache now key s = (None, s).
Proof. intros G. unfold getFromCache. rewrite G. reflexivity. Qed.

(** C1, as the code has it.  [cacheResult] evicts when the size it finds
    is above 50: then the earliest-inserted entry is removed before the
    new one is set, and otherwise nothing is removed.  Starting from an
    empty cache and putting distinct keys, the cache holds the last 51
    of them in insertion order: up to 51 (50 + 1) keys are all retained
    and retrievable, and with 52 (50 + 2) keys exactly the first one is
    evicted and every other one is retrievable. *)
Theorem cache_fifo_eviction :
  (forall (now : Z) (key : string) (d : list Detection) (s : t),
      let cache := detectionCache s in
      let entry := {| entry_data := d; entry_timestamp := now |} in
      ((50 < JSMap.size cache)%nat ->
       exists k0 e0 rest,
         cache = (k0, e0) :: rest /\
         detectionCache (cacheResult now key d s)
         = JSMap.set key entry (JSMap.delete k0 cache)) /\
      ((JSMap.size cache <= 50)%nat ->
       detectionCache (cacheResult now key d s)
       = JSMap.set key entry cache)) /\
  (forall (s0 : t) (puts : list CachePut) (now : Z),
      detectionCache s0 = JSMap.empty ->
      NoDup (List.map put_key puts) ->
      (forall p, In p puts -> now - put_time p < cacheTimeout s0) ->
      let s := put_all puts s0 in
      JSMap.keys (detectionCache s)
      = skipn (List.length puts - 51) (List.map put_key puts) /\
      ((List.length puts <= 51)%nat ->
       forall p, In p puts ->
         getFromCache now (put_key p) s = (Some (put_data p), s)) /\
      (List.length puts = 52%nat ->
       forall p0 rest, puts = p0 :: rest ->
         getFromCache now (put_key p0) s = (None, s) /\
         forall p, In p rest ->
           getFromCache now (put_key p) s = (Some (put_data p), s))).
Proof.
split.
- intros now key d s cache entry. unfold cacheResult, JSMap.size.
  fold cache. split.
  + intros Hfull.
    destruct cache as [|[k0 e0] rest] eqn:E; [simpl in Hfull; lia|].
    exists k0, e0, rest. split; [reflexivity|].
    destruct (Nat.ltb_spec 50 (List.length ((k0, e0) :: rest)));
      [reflexivity | lia].
  + intros Hroom.
    destruct (Nat.ltb_spec 50 (List.length cache)); [lia | reflexivity].
- intros s0 puts now Hempty ND Hlive s.
  destruct (put_all_distinct puts s0) as [Hc Ht].
  { rewrite Hempty. exact ND. }
  fold s in Hc, Ht. rewrite Hempty in Hc. unfold JSMap.empty in Hc.
  rewrite fifo_push_all in Hc by (simpl; lia).
  simpl app in Hc. rewrite length_map in Hc.
  assert (Hpresent :
            forall p, In (entry_of p) (detectionCache s) ->
                      In p puts ->
                      getFromCache now (put_key p) s = (Some (put_data p), s)).
  { intros p Hin Hp.
    apply (getFromCache_live now (put_key p)
             {| entry_data := put_data p; entry_timestamp := put_time p |}).
    - apply map_get_present; [|exact Hin].
      unfold JSMap.wf, JSMap.keys. rewrite Hc, <- skipn_map.
      rewrite map_map. simpl.
      rewrite <- (firstn_skipn (List.length puts - 51) (List.map put_key puts))
        in ND.
      apply NoDup_app_remove_l in ND. exact ND.
    - simpl. rewrite Ht. apply Hlive. exact Hp. }
  split; [|split].
  + unfold JSMap.keys. rewrite Hc, <- skipn_map, map_map. reflexivity.
  + intros Hle p Hp. apply Hpresent; [|exact Hp].
    rewrite Hc. replace (List.length puts - 51)%nat with 0%nat by lia.
    simpl. apply in_map. exact Hp.
  + intros Hlen p0 rest ->. simpl in Hlen.
    replace (List.length (p0 :: rest) - 51)%nat with 1%nat in Hc
      by (simpl; lia).
    simpl in Hc. split.
    * apply getFromCache_absent. apply map_get_absent.
      unfold JSMap.keys. rewrite Hc, map_map. simpl.
      simpl in ND. inversion ND; assumption.
    * intros p Hp. apply Hpresent; [|right; exact Hp].
      rewrite Hc. apply in_map. exact Hp.
Qed.

(** C7.  An entry of the cache inserted at [t0] is returned by
    [getFromCache] at every time strictly before [t0 + cacheTimeout],
    the cache staying as it is; at every time from [t0 + cacheTimeout]
    on the read returns [null] and deletes the entry.  [cacheResult]
    inserts such an entry, stamped with the time of the call. *)
Theorem cache_ttl_semantics :
  (forall (now : Z) (key : string) (e : CacheEntry) (s : t),
      JSMap.get key (detectionCache s) = Some e ->
      (now < entry_timestamp e + cacheTimeout s ->
       getFromCache now key s = (Some (entry_data e), s)) /\
      (now >= entry_timestamp e + cacheTimeout s ->
       fst (getFromCache now key s) = None /\
       detectionCache (snd (getFromCache now key s))
       = JSMap.delete key (detectionCache s) /\
       JSMap.get key (detectionCache (snd (getFromCache now key s)))
       = None)) /\
  (forall (t0 : Z) (key : string) (d : list Detection) (s0 : t),
      JSMap.get key (detectionCache (cacheResult t0 key d s0))
      = Some {| entry_data := d; entry_timestamp := t0 |} /\
      cacheTimeout (cacheResult t0 key d s0) = cacheTimeout s0).
Proof.
split.
- intros now key e s G. split.
  + intros L. apply getFromCache_live; [exact G | lia].
  + intros L. unfold getFromCache. rewrite G.
    destruct (Z.ltb_spec (now - entry_timestamp e) (cacheTimeout s));
      [lia|].
    simpl. repeat split; try reflexivity. apply map_get_delete_same.
- intros t0 key d s0. split; [|reflexivity].
  unfold cacheResult. simpl. apply map_get_set_same.
Qed.

End CacheProperties.

(* ------------------------------------------------------------------ *)
(** ** The cache on concrete keys *)

Fixpoint distinctb (l : list string) : bool :=
  match l with
  | [] => true
  | k :: l' => negb (existsb (String.eqb k) l') && distinctb l'
  end.

Lemma distinctb_NoDup (l : list string) : distinctb l = true -> NoDup l.
Proof.
induction l as [|k l IH]; simpl; intros D; [constructor|].
apply andb_true_iff in D. destruct D as [D1 D2].
constructor; [|apply IH; exact D2].
intros Hin. apply negb_true_iff in D1.
assert (E : existsb (String.eqb k) l = true).
{ apply existsb_exists. exists k. split; [exact Hin|apply String.eqb_refl]. }
congruence.
Qed.

Section CacheRuns.

Import RekognitionService Fixtures.

(** C1 as stated fails with the bound 50 of the code: after 51 (50 + 1)
    distinct keys are put into an empty cache, the cache holds all 51 of
    them and the first-inserted key ["0"] is still retrieved. *)
Lemma fifty_one_keys_all_retained :
  let s := put_all (puts_upto 51) service in
  detectionCache service = JSMap.empty /\
  NoDup (List.map put_key (puts_upto 51)) /\
  List.length (puts_upto 51) = 51%nat /\
  JSMap.size (detectionCache s) = 51%nat /\
  JSMap.keys (detectionCache s) = List.map put_key (puts_upto 51) /\
  List.hd_error (List.map put_key (puts_upto 51)) = Some "0"%string /\
  fst (getFromCache 100 "0" s) = Some [logo] /\
  fst (getFromCache 100 "0" s) <> None.
Proof.
cbv zeta.
split; [reflexivity|].
split; [apply distinctb_NoDup; vm_compute; reflexivity|].
repeat split; try (vm_compute; congruence).
Qed.

Lemma cache_fifo_eviction_witness :
  detectionCache service = JSMap.empty /\
  NoDup (List.map put_key (puts_upto 52)) /\
  (forall p, In p (puts_upto 52) -> 100 - put_time p < cacheTimeout service) /\
  List.length (puts_upto 52) = 52%nat /\
  getFromCache 100 "0" (put_all (puts_upto 52) service)
  = (None, put_all (puts_upto 52) service) /\
  getFromCache 100 "51" (put_all (puts_upto 52) service)
  = (Some [logo], put_all (puts_upto 52) service).
Proof.
assert (E : detectionCache service = JSMap.empty) by reflexivity.
assert (ND : NoDup (List.map put_key (puts_upto 52)))
  by (apply distinctb_NoDup; vm_compute; reflexivity).
assert (L : forall p, In p (puts_upto 52) ->
                      100 - put_time p < cacheTimeout service).
{ intros p Hin. unfold puts_upto in Hin. apply in_map_iff in Hin.
  destruct Hin as (i & <- & Hi). apply in_seq in Hi.
  change (cacheTimeout service) with 5000. cbn [put_time]. lia. }
destruct cache_fifo_eviction as [_ W].
destruct (W service (puts_upto 52) 100 E ND L) as (_ & _ & W52).
destruct (W52 eq_refl _ _ eq_refl) as [W0 Wrest].
split; [exact E|]. split; [exact ND|]. split; [exact L|].
split; [reflexivity|]. split.
- exact W0.
- apply (Wrest {| put_time := 51; put_key := "51"; put_data := [logo] |}).
  vm_compute. do 50 right. left. reflexivity.
Defined.

Lemma cache_ttl_semantics_witness :
  let s := cacheResult 1000 "42" [logo] service in
  JSMap.get "42" (detectionCache s)
  = Some {| entry_data := [logo]; entry_timestamp := 1000 |} /\
  5999 < 1000 + cacheTimeout s /\
  getFromCache 5999 "42" s = (Some [logo], s) /\
  6000 >= 1000 + cacheTimeout s /\
  fst (getFromCache 6000 "42" s) = None /\
  JSMap.get "42" (detectionCache (snd (getFromCache 6000 "42" s))) = None.
Proof.
cbv zeta.
destruct cache_ttl_semantics as [A B].
destruct (B 1000 "42"%string [logo] service) as [G _].
destruct (A 5999 _ _ _ G) as [Hit _].
destruct (A 6000 _ _ _ G) as [_ Miss].
split; [exact G|].
split; [vm_compute; reflexivity|].
split; [apply Hit; vm_compute; reflexivity|].
split; [vm_compute; congruence|].
destruct Miss as (M1 & _ & M3); [vm_compute; congruence|].
split; assumption.
Defined.

End CacheRuns.

(* ================================================================== *)
(** * Retries *)

Section RetryProperties.

Import RekognitionService.

Variable atob : string -> JsError + string.
Variable detectCustomLabels :
  nat -> Params -> JsError + DetectCustomLabelsResponse.

Local Abbreviation try_detect := (try_detect atob detectCustomLabels).
Local Abbreviation detectLogo_rec := (detectLogo_rec atob detectCustomLabels).
Local Abbreviation detectLogo := (detectLogo atob detectCustomLabels).

(** The settings read by [detectLogo]. *)
Definition same_settings (s s' : t) : Prop :=
  isInitialized s' = isInitialized s /\
  modelArn s' = modelArn s /\
  confidenceThreshold s' = confidenceThreshold s /\
  maxRetries s' = maxRetries s /\
  cacheTimeout s' = cacheTimeout s.

(** After a miss the key is not in the cache, whatever the time. *)
Lemma getFromCache_miss (now : Z) (key : string) (s : t) :
  fst (getFromCache now key s) = None ->
  let s' := snd (getFromCache now key s) in
  JSMap.get key (detectionCache s') = None /\
  same_settings s s' /\ stats s' = stats s.
Proof.
unfold getFromCache, same_settings.
destruct (JSMap.get key (detectionCache s)) as [cached|] eqn:G.
- destruct (now - entry_timestamp cached <? cacheTimeout s); simpl;
    [discriminate|].
  intros _. repeat split. apply map_get_delete_same.
- simpl. intros _. repeat split. exact G.
Qed.

(** A [try] block whose remote call fails. *)
Lemma try_detect_remote_failure (url : string) (s : t) (w : World)
    (bytes : list byte) (e : JsError) :
  fst (getFromCache (clock w) (generateCacheKey url) s) = None ->
  dataUrlToBytes atob url = inr bytes ->
  detectCustomLabels (calls w) (params_of s bytes) = inl e ->
  exists s1,
    try_detect url s w
    = (inl e, s1,
       {| clock := clock w; calls := S (calls w);
          trace := trace w ++ [EvCall (params_of s bytes)] |}) /\
    JSMap.get (generateCacheKey url) (detectionCache s1) = None /\
    same_settings s s1 /\
    apiCalls (stats s1) = apiCalls (stats s) + 1 /\
    errors (stats s1) = errors (stats s).
Proof.
intros Miss Dec Fail.
pose proof (getFromCache_miss _ _ _ Miss) as (Gone & Same & St).
unfold RekognitionService.try_detect.
destruct (getFromCache (clock w) (generateCacheKey url) s) as [r s0].
simpl in *. subst r. rewrite Dec.
destruct Same as (S1 & S2 & S3 & S4 & S5).
unfold remote_call. simpl.
unfold params_of in Fail. rewrite S2, S3, Fail.
eexists. split; [unfold params_of; reflexivity|].
simpl. rewrite St. unfold same_settings. simpl. tauto.
Qed.

Lemma count_calls_linear_backoff (p : Params) (baseDelay : Z) (n : nat) :
  count_calls (linear_backoff_trace p baseDelay n) = S n.
Proof.
unfold count_calls, linear_backoff_trace. simpl. f_equal.
generalize 1%nat. induction n as [|n IH]; intros k; simpl; [reflexivity|].
rewrite IH. reflexivity.
Qed.

Lemma getFromCache_settings (now : Z) (key : string) (s : t) :
  same_settings s (snd (getFromCache now key s)).
Proof.
unfold getFromCache, same_settings.
destruct (JSMap.get key (detectionCache s)) as [cached|]; [|tauto].
destruct (now - entry_timestamp cached <? cacheTimeout s); simpl; tauto.
Qed.

(** The [try] block leaves the settings alone. *)
Lemma try_detect_settings (url : string) (s : t) (w : World) :
  same_settings s (snd (fst (try_detect url s w))).
Proof.
unfold RekognitionService.try_detect.
pose proof (getFromCache_settings (clock w) (generateCacheKey url) s) as G.
destruct (getFromCache (clock w) (generateCacheKey url) s) as [c s0].
simpl in G. destruct c as [r|]; [exact G|].
destruct (dataUrlToBytes atob url) as [e|bytes]; [exact G|].
unfold remote_call.
destruct (detectCustomLabels _ _) as [e|result]; simpl; [exact G|].
destruct (processDetectionResults _ result); simpl; exact G.
Qed.

(** One unfolding of [detectLogo]. *)
Lemma detectLogo_rec_step (fuel : nat) (url : string) (retryCount : Z)
    (s : t) (w : World) :
  detectLogo_rec (S fuel) url retryCount s w
  = if negb (isInitialized s)
    then Some (inl "Rekognition service not initialized"%string, s, w)
    else
      let '(r, s, w) := try_detect url s w in
      match r with
      | inr dets => Some (inr dets, s, w)
      | inl error =>
          let s := set_stats s (incr_errors (stats s)) in
          if (retryCount <? maxRetries s) && isRetryableError error
          then
            let w := delay (1000 * (retryCount + 1)) w in
            detectLogo_rec fuel url (retryCount + 1) s w
          else Some (inl (handleRekognitionError error), s, w)
      end.
Proof. reflexivity. Qed.

(** [detectLogo] terminates: whatever the service answers, the recursion
    is no deeper than the retries left, so the fuel given by [detectLogo]
    is never used up. *)
Lemma detectLogo_rec_total (url : string) (fuel : nat) :
  forall (retryCount : Z) (s : t) (w : World),
    (Z.to_nat (maxRetries s - retryCount) < fuel)%nat ->
    exists r, detectLogo_rec fuel url retryCount s w = Some r.
Proof.
induction fuel as [|fuel IH]; intros rc s w Hf; [lia|].
rewrite detectLogo_rec_step.
destruct (negb (isInitialized s)); [eexists; reflexivity|].
pose proof (try_detect_settings url s w) as (_ & _ & _ & M & _).
destruct (try_detect url s w) as [[r s1] w1]. simpl in M.
destruct r as [e|dets]; [|eexists; reflexivity].
cbv zeta. cbn [maxRetries set_stats].
destruct (Z.ltb_spec rc (maxRetries s1)) as [Hlt|Hge];
  [|eexists; reflexivity].
destruct (isRetryableError e); [|eexists; reflexivity].
cbn [andb]. apply IH. cbn [maxRetries set_stats]. lia.
Qed.

Lemma detectLogo_total (url : string) (s : t) (w : World) :
  exists r, detectLogo url s w = Some r.
Proof.
unfold RekognitionService.detectLogo. apply detectLogo_rec_total. lia.
Qed.

(** The retry loop from [retryCount = r] with [m] retries left, when the
    remote calls keep failing with retryable errors. *)
Lemma retry_loop (url : string) (bytes : list byte) (m : nat) :
  dataUrlToBytes atob url = inr bytes ->
  forall (fuel r : nat) (s : t) (w : World),
    (forall n, exists e,
        detectCustomLabels n (params_of s bytes) = inl e /\
        isRetryableError e = true) ->
    isInitialized s = true ->
    maxRetries s = Z.of_nat (r + m) ->
    (m < fuel)%nat ->
    fst (getFromCache (clock w) (generateCacheKey url) s) = None ->
    exists s' w' e,
      detectLogo_rec fuel url (Z.of_nat r) s w
      = Some (inl (handleRekognitionError e), s', w') /\
      detectCustomLabels (calls w + m) (params_of s bytes) = inl e /\
      trace w'
      = trace w
        ++ EvCall (params_of s bytes)
           :: flat_map
                (fun k => [EvDelay (Z.of_nat k * 1000);
                           EvCall (params_of s bytes)])
                (seq (S r) m) /\
      calls w' = (calls w + S m)%nat /\
      apiCalls (stats s') = apiCalls (stats s) + Z.of_nat (S m) /\
      errors (stats s') = errors (stats s) + Z.of_nat (S m).
Proof.
intros Dec.
induction m as [|m IH]; intros fuel r s w Fail Init Max Fuel Miss;
  (destruct fuel as [|fuel]; [lia|]);
  destruct (Fail (calls w)) as (e & Fe & Re);
  destruct (try_detect_remote_failure url s w bytes e Miss Dec Fe)
    as (s1 & T & Gone & Same & Api & Err);
  destruct Same as (S1 & S2 & S3 & S4 & S5);
  rewrite detectLogo_rec_step, Init; cbn [negb]; cbv iota;
  rewrite T; cbv zeta; cbn [maxRetries set_stats]; rewrite S4, Re.
- assert (L : (Z.of_nat r <? maxRetries s) = false)
    by (apply Z.ltb_ge; lia).
  rewrite L. simpl andb. cbv iota.
  eexists _, _, e. split; [reflexivity|].
  rewrite Nat.add_0_r. split; [exact Fe|].
  cbn [trace calls stats set_stats incr_errors apiCalls errors].
  repeat split; lia.
- assert (L : (Z.of_nat r <? maxRetries s) = true)
    by (apply Z.ltb_lt; lia).
  rewrite L. simpl andb. cbv iota.
  set (s2 := set_stats s1 (incr_errors (stats s1))).
  set (w2 := delay _ _).
  assert (P : params_of s2 bytes = params_of s bytes).
  { unfold params_of, s2. simpl. rewrite S2, S3. reflexivity. }
  destruct (IH fuel (S r) s2 w2) as (s' & w' & e' & R & Fe' & Tr & Ca & Ap & Er).
  { intros n. rewrite P. apply Fail. }
  { unfold s2; simpl. congruence. }
  { unfold s2; simpl. rewrite S4, Max. lia. }
  { lia. }
  { apply (f_equal fst (getFromCache_absent _ _ s2 Gone)). }
  exists s', w', e'.
  replace (Z.of_nat r + 1) with (Z.of_nat (S r)) by lia.
  split; [exact R|].
  rewrite P in Fe', Tr. unfold w2, delay in Fe', Tr, Ca.
  cbn [trace clock calls] in Fe', Tr, Ca.
  split; [rewrite <- Fe'; f_equal; lia|].
  split.
  + rewrite Tr. rewrite <- !app_assoc. cbn [seq flat_map app].
    do 4 f_equal. lia.
  + unfold s2 in Ap, Er. cbn [stats set_stats incr_errors apiCalls errors]
      in Ap, Er.
    repeat split; lia.
Qed.

(** How [isRetryableError] sorts the errors of the service. *)
Lemma error_classification :
  (forall e c, code e = Some c -> In c retryableCodes ->
               isRetryableError e = true) /\
  (forall e sc, statusCode e = Some sc -> sc >= 500 ->
                isRetryableError e = true) /\
  (forall e, code e = Some "NetworkingError"%string ->
             isRetryableError e = true) /\
  (forall e c, code e = Some c -> In c fatalCodes ->
               (forall sc, statusCode e = Some sc -> sc < 500) ->
               isRetryableError e = false).
Proof.
unfold isRetryableError, code_is. repeat split.
- intros e c -> Hin.
  assert (E : existsb (fun c' => String.eqb c c') retryableCodes = true).
  { apply existsb_exists. exists c. split; [exact Hin|apply String.eqb_refl]. }
  unfold retryableCodes in *. cbn [existsb] in *. rewrite E. reflexivity.
- intros e sc -> Hsc.
  destruct (Z.geb_spec sc 500); [|lia]. apply orb_true_iff. left.
  apply orb_true_r.
- intros e ->. apply orb_true_r.
- intros e c -> Hin Hsc.
  assert (S : match statusCode e with
              | Some sc => sc >=? 500
              | None => false
              end = false).
  { destruct (statusCode e) as [sc|]; [|reflexivity].
    specialize (Hsc sc eq_refl). destruct (Z.geb_spec sc 500); [lia|reflexivity]. }
  rewrite S.
  simpl in Hin. decompose [or] Hin; subst; try contradiction; reflexivity.
Qed.

(** C6.  Take an initialised service with [maxRetries >= 0], an image
    that is not in the cache and whose data URL decodes.  If every remote
    call fails with a retryable error, [detectLogo] issues exactly
    [maxRetries + 1] calls, waiting [k * 1000] ms before the [k]-th
    retry, and then throws the error made from the last failure.  If the
    first call fails with an error that is not retryable, [detectLogo]
    issues that one call and throws at once.  Throttling, 5xx and
    network errors are retryable; invalid-parameter, resource-not-found,
    access-denied and limit-exceeded errors (below status 500) are not. *)
Theorem retry_ceiling (url : string) (bytes : list byte) (s : t) (w : World) :
  isInitialized s = true ->
  0 <= maxRetries s ->
  fst (getFromCache (clock w) (generateCacheKey url) s) = None ->
  dataUrlToBytes atob url = inr bytes ->
  let p := params_of s bytes in
  let n := Z.to_nat (maxRetries s) in
  ((forall k, exists e,
       detectCustomLabels k p = inl e /\ isRetryableError e = true) ->
   exists s' w' e,
     detectLogo url s w = Some (inl (handleRekognitionError e), s', w') /\
     detectCustomLabels (calls w + n) p = inl e /\
     trace w' = trace w ++ linear_backoff_trace p 1000 n /\
     count_calls (linear_backoff_trace p 1000 n) = S n /\
     calls w' = (calls w + S n)%nat /\
     apiCalls (stats s') = apiCalls (stats s) + (maxRetries s + 1)) /\
  (forall e,
      detectCustomLabels (calls w) p = inl e ->
      isRetryableError e = false ->
      exists s',
        detectLogo url s w
        = Some (inl (handleRekognitionError e), s',
                {| clock := clock w; calls := S (calls w);
                   trace := trace w ++ [EvCall p] |}) /\
        count_calls [EvCall p] = 1%nat /\
        apiCalls (stats s') = apiCalls (stats s) + 1) /\
  (forall e c, code e = Some c ->
               In c (retryableCodes ++ ["NetworkingError"%string]) ->
               isRetryableError e = true) /\
  (forall e sc, statusCode e = Some sc -> sc >= 500 ->
                isRetryableError e = true) /\
  (forall e c, code e = Some c -> In c fatalCodes ->
               (forall sc, statusCode e = Some sc -> sc < 500) ->
               isRetryableError e = false).
Proof.
intros Init Max Miss Dec p n.
destruct error_classification as (C1 & C2 & C3 & C4).
split; [|split; [|split; [|split]]].
- intros Fail.
  destruct (retry_loop url bytes n Dec (S n) 0 s w Fail Init)
    as (s' & w' & e & R & Fe & Tr & Ca & Ap & _).
  { unfold n. simpl. lia. }
  { lia. }
  { exact Miss. }
  exists s', w', e.
  split; [exact R|]. split; [exact Fe|]. split; [exact Tr|].
  split; [apply count_calls_linear_backoff|]. split; [exact Ca|].
  rewrite Ap. unfold n. lia.
- intros e Fe Fatal.
  destruct (try_detect_remote_failure url s w bytes e Miss Dec Fe)
    as (s1 & T & _ & _ & Api & _).
  exists (set_stats s1 (incr_errors (stats s1))).
  split; [|split; [reflexivity|exact Api]].
  unfold RekognitionService.detectLogo.
  rewrite detectLogo_rec_step, Init. cbn [negb]. cbv iota.
  fold p in T. rewrite T. cbv zeta. rewrite Fatal, andb_false_r.
  reflexivity.
- intros e c Hc Hin. apply in_app_or in Hin. destruct Hin as [Hin|Hin].
  + exact (C1 e c Hc Hin).
  + simpl in Hin. destruct Hin as [<-|[]]. exact (C3 e Hc).
- exact C2.
- exact C4.
Qed.

End RetryProperties.

(* ------------------------------------------------------------------ *)
(** ** Retries against a concrete service *)

Section RetryRuns.

Import RekognitionService Fixtures.

Lemma retry_ceiling_witness :
  isInitialized service = true /\
  0 <= maxRetries service /\
  fst (getFromCache (clock world0) (generateCacheKey jpeg_url) service)
  = None /\
  dataUrlToBytes atob_ok jpeg_url = inr [x61; x62; x63] /\
  (exists s' w' e,
      detectLogo atob_ok (always_failing throttled) jpeg_url service world0
      = Some (inl (handleRekognitionError e), s', w') /\
      trace w'
      = trace world0
        ++ linear_backoff_trace (params_of service [x61; x62; x63]) 1000 3 /\
      calls w' = 4%nat) /\
  (exists s',
      detectLogo atob_ok (always_failing access_denied) jpeg_url service
        world0
      = Some (inl (handleRekognitionError access_denied), s',
              {| clock := 0; calls := 1;
                 trace := [EvCall (params_of service [x61; x62; x63])] |})).
Proof.
assert (I : isInitialized service = true) by reflexivity.
assert (M : 0 <= maxRetries service) by (vm_compute; congruence).
assert (C : fst (getFromCache (clock world0) (generateCacheKey jpeg_url)
                   service) = None) by reflexivity.
assert (D : dataUrlToBytes atob_ok jpeg_url = inr [x61; x62; x63])
  by reflexivity.
split; [exact I|]. split; [exact M|]. split; [exact C|]. split; [exact D|].
split.
- destruct (retry_ceiling atob_ok (always_failing throttled) jpeg_url
              [x61; x62; x63] service world0 I M C D) as [R _].
  destruct R as (s' & w' & e & R1 & _ & R3 & _ & R5 & _).
  { intros k. exists throttled. split; reflexivity. }
  exists s', w', e. split; [exact R1|]. split; [exact R3|exact R5].
- destruct (retry_ceiling atob_ok (always_failing access_denied) jpeg_url
              [x61; x62; x63] service world0 I M C D) as (_ & F & _).
  destruct (F access_denied eq_refl eq_refl) as (s' & F1 & _).
  exists s'. exact F1.
Defined.

(** What the run against the throttling service looks like: four calls,
    with waits of one, two and three seconds between them. *)
Example throttled_run_trace :
  option_map (fun r => (fst (fst r), trace (snd r)))
    (detectLogo atob_ok (always_failing throttled) jpeg_url service world0)
  = Some (inl "Too many requests. Please wait and try again"%string,
          let p := params_of service [x61; x62; x63] in
          [EvCall p; EvDelay 1000; EvCall p; EvDelay 2000;
           EvCall p; EvDelay 3000; EvCall p]).
Proof. vm_compute. reflexivity. Qed.

End RetryRuns.

(* ================================================================== *)
(** * Further properties of the admission pipeline *)


Lemma for_range_empty_when (start stop step : Z) :
  0 < step -> stop <= start -> for_range start stop step = [].
Proof.
intros Hs Hle. unfold for_range.
replace (Z.to_nat ((stop - start + step - 1) / step)) with 0%nat;
  [reflexivity|].
assert ((stop - start + step - 1) / step <= 0); [|lia].
apply Z.lt_succ_r. apply Z.div_lt_upper_bound; lia.
Qed.

Section PipelineInvariants.

Context {T : Type} `{JSNumber T}.

Import SmartDetection.

(** The settings of a pipeline: what [shouldProcessFrame] reads but never
    writes. *)
Definition same_pipeline_settings (s s' : t T) : Prop :=
  isEnabled s' = isEnabled s /\
  motionThreshold s' = motionThreshold s /\
  qualityThreshold s' = qualityThreshold s /\
  scanInterval s' = scanInterval s.

Ltac with_motion :=
  match goal with
  | Hm : detectMotion ?a ?b = (_, _) |- _ =>
      let D := fresh "D" in
      pose proof (detectMotion_frame a b) as D; rewrite Hm in D;
      simpl in D; decompose [and] D; clear D
  end.

Lemma step_settings now f s site s' :
  step_spec now f s site s' -> same_pipeline_settings s s'.
Proof.
unfold same_pipeline_settings.
intros St; inversion St; subst; simpl; try with_motion;
  repeat split; congruence.
Qed.

Lemma run_frames_settings (frames : list (Z * FrameData)) :
  forall s : t T, same_pipeline_settings s (snd (run_frames frames s)).
Proof.
induction frames as [|[now f] rest IH]; intros s; simpl.
- unfold same_pipeline_settings. tauto.
- pose proof (shouldProcessFrame_at_spec now f s) as St.
  destruct (shouldProcessFrame_at now f s) as [site s1]; simpl in St.
  apply step_settings in St. specialize (IH s1).
  destruct (run_frames rest s1) as [log s2]; simpl in *.
  unfold same_pipeline_settings in *. intuition congruence.
Qed.

(** X1.  No run of [shouldProcessFrame] calls changes the enabled flag, the
    two thresholds or the scan interval; so a [reset] after any run
    gives the state that a [reset] before it gives. *)
Theorem run_keeps_settings (frames : list (Z * FrameData)) (s : t T) :
  let s' := snd (run_frames frames s) in
  isEnabled s' = isEnabled s /\
  motionThreshold s' = motionThreshold s /\
  qualityThreshold s' = qualityThreshold s /\
  scanInterval s' = scanInterval s /\
  reset s' = reset s.
Proof.
cbv zeta. destruct (run_frames_settings frames s) as (E & M & Q & I).
repeat split; try assumption.
unfold reset. rewrite E, M, Q, I. reflexivity.
Qed.

(** [detectMotion] counts a frame in [motionDetected] exactly when it
    reports motion. *)
Lemma detectMotion_counts (s : t T) (img : ImageData) :
  motionDetected (stats (snd (detectMotion s img)))
  = motionDetected (stats s) + (if fst (detectMotion s img) then 1 else 0).
Proof.
unfold detectMotion. destruct (lastFrame s); simpl; [|reflexivity].
destruct (nltb _ _); simpl; lia.
Qed.

(** The order the counters keep. *)
Definition counters_ordered (st : Stats) : Prop :=
  0 <= qualityPassed st /\ qualityPassed st <= motionDetected st /\
  motionDetected st <= framesAnalyzed st /\
  0 <= framesSkipped st /\ framesSkipped st <= framesAnalyzed st.

Lemma step_counters_ordered now f s site s' :
  step_spec now f s site s' ->
  counters_ordered (stats s) -> counters_ordered (stats s').
Proof.
unfold counters_ordered.
intros St; inversion St; subst; simpl; intros Inv; try lia;
  match goal with
  | Hm : detectMotion ?a ?b = (_, _) |- _ =>
      pose proof (detectMotion_frame a b) as D;
      pose proof (detectMotion_counts a b) as C;
      rewrite Hm in D, C; simpl in D, C; lia
  end.
Qed.

Lemma run_frames_counters_ordered (frames : list (Z * FrameData)) :
  forall s : t T,
    counters_ordered (stats s) ->
    counters_ordered (stats (snd (run_frames frames s))).
Proof.
induction frames as [|[now f] rest IH]; intros s Inv; simpl; [exact Inv|].
pose proof (shouldProcessFrame_at_spec now f s) as St.
destruct (shouldProcessFrame_at now f s) as [site s1]; simpl in St.
specialize (IH s1 (step_counters_ordered _ _ _ _ _ St Inv)).
destruct (run_frames rest s1) as [log s2]; simpl in *. exact IH.
Qed.

(** X2.  Starting from a newly constructed or a reset pipeline, after any
    number of calls: [0 <= qualityPassed <= motionDetected <=
    framesAnalyzed] and [0 <= framesSkipped <= framesAnalyzed]. *)
Theorem counters_stay_ordered :
  (forall (mt qt : T) (si : Z) (frames : list (Z * FrameData)),
      counters_ordered
        (stats (snd (run_frames frames (constructor mt qt si))))) /\
  (forall (s : t T) (frames : list (Z * FrameData)),
      counters_ordered (stats (snd (run_frames frames (reset s))))).
Proof.
split; intros; apply run_frames_counters_ordered;
  unfold counters_ordered; simpl; lia.
Qed.

(** How many entries of a log have a return site satisfying [p]. *)
Definition count_sites (p : ReturnSite -> bool) (log : list (Z * ReturnSite))
    : Z :=
  Z.of_nat (List.length (List.filter (fun e => p (snd e)) log)).

(** X3.  On an enabled pipeline [framesAnalyzed] grows by the number of
    calls, [qualityPassed] by the number of calls that returned [true]
    and [framesSkipped] by the number that returned [false]. *)
Theorem counters_count_calls (frames : list (Z * FrameData)) :
  forall s : t T,
    isEnabled s = true ->
    let log := fst (run_frames frames s) in
    let s' := snd (run_frames frames s) in
    List.length log = List.length frames /\
    framesAnalyzed (stats s')
    = framesAnalyzed (stats s) + Z.of_nat (List.length frames) /\
    qualityPassed (stats s')
    = qualityPassed (stats s) + count_sites returned log /\
    framesSkipped (stats s')
    = framesSkipped (stats s)
      + count_sites (fun site => negb (returned site)) log.
Proof.
unfold count_sites.
induction frames as [|[now f] rest IH]; intros s En; simpl.
- repeat split; lia.
- pose proof (shouldProcessFrame_at_spec now f s) as St.
  destruct (shouldProcessFrame_at now f s) as [site s1]; simpl in St.
  pose proof (step_isEnabled _ _ _ _ _ St) as E1. rewrite En in E1.
  specialize (IH s1 E1).
  destruct (run_frames rest s1) as [log s2]; simpl in *.
  destruct IH as (L & A & Q & K).
  assert (Hstep :
            framesAnalyzed (stats s1) = framesAnalyzed (stats s) + 1 /\
            qualityPassed (stats s1)
            = qualityPassed (stats s) + (if returned site then 1 else 0) /\
            framesSkipped (stats s1)
            = framesSkipped (stats s) + (if returned site then 0 else 1)).
  { inversion St; subst; simpl; try congruence; try with_motion;
      repeat split; lia. }
  destruct Hstep as (A1 & Q1 & K1).
  destruct (returned site); simpl; repeat split; lia.
Qed.

(** X4.  After a frame is admitted at time [t0], every call made at a time
    [now] with [now - t0 < scanInterval] is rejected by the throttling:
    the frames are skipped unexamined, and the baseline and
    [lastScanTime] stay as the admitted frame left them. *)
Theorem quiet_period_after_admission
    (t0 : Z) (f0 : FrameData) (s : t T) (frames : list (Z * FrameData)) :
  isEnabled s = true ->
  fst (shouldProcessFrame_at t0 f0 s) = RetAdmitted ->
  (forall now f, In (now, f) frames -> now - t0 < scanInterval s) ->
  let s1 := snd (shouldProcessFrame_at t0 f0 s) in
  let log := fst (run_frames frames s1) in
  let s' := snd (run_frames frames s1) in
  (forall now site, In (now, site) log -> site = RetThrottled) /\
  lastFrame s' = Some (copyImageData (imageData f0)) /\
  lastScanTime s' = t0 /\
  qualityPassed (stats s') = qualityPassed (stats s1) /\
  motionDetected (stats s') = motionDetected (stats s1).
Proof.
intros En Adm Hclose. cbv zeta.
pose proof (shouldProcessFrame_at_spec t0 f0 s) as St.
destruct (shouldProcessFrame_at t0 f0 s) as [site s1]; simpl in *.
subst site.
pose proof (step_lastScanTime _ _ _ _ _ St) as L. rewrite En in L.
simpl in L.
pose proof (step_isEnabled _ _ _ _ _ St) as E1. rewrite En in E1.
pose proof (step_scanInterval _ _ _ _ _ St) as I1.
assert (B : lastFrame s1 = Some (copyImageData (imageData f0))).
{ inversion St; subst; simpl. with_motion. assumption. }
rewrite <- I1, <- L in Hclose. rewrite <- L, <- B.
clear St L I1 B En.
revert s1 E1 Hclose.
induction frames as [|[now f] rest IH]; intros s1 E1 Hclose; simpl.
- repeat split; try reflexivity. intros ? ? [].
- assert (Hnow : now - lastScanTime s1 < scanInterval s1)
    by (apply (Hclose now f); left; reflexivity).
  set (s2 := set_stats s1
               (incr_framesSkipped (incr_framesAnalyzed (stats s1)))).
  assert (Q : shouldProcessFrame_at now f s1 = (RetThrottled, s2)).
  { unfold shouldProcessFrame_at. rewrite E1. simpl.
    destruct (Z.ltb_spec (now - lastScanTime s1) (scanInterval s1));
      [reflexivity | lia]. }
  rewrite Q.
  specialize (IH s2 E1).
  destruct (run_frames rest s2) as [log s3]. simpl in *.
  destruct IH as (A & B & C & D & E).
  { intros now' f' Hin. apply (Hclose now' f'). right. exact Hin. }
  repeat split; try assumption.
  intros now' site [Heq|Hin]; [congruence | eauto].
Qed.

(** X5.  Later settings override earlier ones, property by property, and
    [updateSettings] touches nothing but the three settings. *)
Theorem updateSettings_compose (a b : Settings T) (s : t T) :
  let first_of (x y : option T) := match y with Some _ => y | None => x end in
  let first_of_Z (x y : option Z) :=
    match y with Some _ => y | None => x end in
  updateSettings b (updateSettings a s)
  = updateSettings
      {| new_motionThreshold :=
           first_of (new_motionThreshold a) (new_motionThreshold b);
         new_qualityThreshold :=
           first_of (new_qualityThreshold a) (new_qualityThreshold b);
         new_scanInterval :=
           first_of_Z (new_scanInterval a) (new_scanInterval b) |} s /\
  lastFrame (updateSettings a s) = lastFrame s /\
  lastScanTime (updateSettings a s) = lastScanTime s /\
  isEnabled (updateSettings a s) = isEnabled s /\
  stats (updateSettings a s) = stats s.
Proof.
cbv zeta. destruct a as [am aq ai], b as [bm bq bi], s.
unfold updateSettings; simpl.
destruct am, aq, ai, bm, bq, bi; simpl; repeat split; reflexivity.
Qed.

(** X6.  A frame without interior pixels (width or height at most 2) has
    sharpness 0, and the difference to any frame is 0 when the current
    frame has no pixel data. *)
Theorem degenerate_frames :
  (forall img : ImageData,
      width img <= 2 \/ height img <= 2 ->
      calculateSharpness (T:=T) img = num_of_Z 0) /\
  (forall frame1 frame2 : ImageData,
      data frame1 = [] ->
      calculateFrameDifference (T:=T) frame1 frame2 = num_of_Z 0).
Proof.
split.
- intros img Hsmall. unfold calculateSharpness.
  destruct Hsmall as [Hw|Hh].
  + rewrite (for_range_empty_when 1 (width img - 1) 4) by lia. simpl.
    assert (E : forall (l : list Z) (a : T * Z),
               fold_left (fun (acc : T * Z) (_ : Z) => acc) l a = a).
    { induction l; intros; simpl; auto. }
    rewrite E. reflexivity.
  + rewrite (for_range_empty_when 1 (height img - 1) 1) by lia.
    reflexivity.
- intros frame1 frame2 E. unfold calculateFrameDifference. rewrite E.
  reflexivity.
Qed.

End PipelineInvariants.

(* ------------------------------------------------------------------ *)
(** ** The motion and quality scores in exact arithmetic *)

Section ScoresReal.

Import SmartDetection.

Local Open Scope R_scope.










End ScoresReal.

(* ================================================================== *)
(** * Further properties of the cache and of the dispatcher *)

Section MapInvariants.

Context {V : Type}.
Implicit Types (m : JSMap.t V) (k : string) (v : V).

Lemma map_keys_set k v m :
  JSMap.keys (JSMap.set k v m)
  = if existsb (String.eqb k) (JSMap.keys m) then JSMap.keys m
    else JSMap.keys m ++ [k].
Proof.
induction m as [|[k' v'] m IH]; simpl; [reflexivity|].
destruct (String.eqb k k') eqn:E; simpl; [reflexivity|].
rewrite IH. destruct (existsb _ _); reflexivity.
Qed.

Lemma map_wf_set k v m : JSMap.wf m -> JSMap.wf (JSMap.set k v m).
Proof.
unfold JSMap.wf. intros W. rewrite map_keys_set.
destruct (existsb (String.eqb k) (JSMap.keys m)) eqn:E; [exact W|].
apply NoDup_app; [exact W | repeat constructor; simpl; tauto |].
intros k' Hin [<-|[]].
assert (existsb (String.eqb k) (JSMap.keys m) = true); [|congruence].
apply existsb_exists. exists k. split; [exact Hin|apply String.eqb_refl].
Qed.

Lemma map_size_set k v m :
  (JSMap.size (JSMap.set k v m) <= S (JSMap.size m))%nat.
Proof.
unfold JSMap.size.
induction m as [|[k' v'] m IH]; simpl; [lia|].
destruct (String.eqb k k'); simpl; lia.
Qed.

Lemma map_in_keys_delete k k' m :
  In k' (JSMap.keys (JSMap.delete k m)) -> In k' (JSMap.keys m) /\ k' <> k.
Proof.
induction m as [|[k0 v0] m IH]; simpl; [tauto|].
destruct (String.eqb_spec k k0) as [->|N]; simpl.
- intros Hin. destruct (IH Hin). tauto.
- intros [<-|Hin]; [split; [tauto|congruence]|].
  destruct (IH Hin). tauto.
Qed.

Lemma map_wf_delete k m : JSMap.wf m -> JSMap.wf (JSMap.delete k m).
Proof.
unfold JSMap.wf.
induction m as [|[k0 v0] m IH]; simpl; intros W; [exact W|].
inversion W as [|? ? Hn W']; subst.
destruct (String.eqb k k0); simpl; [apply IH; exact W'|].
constructor; [|apply IH; exact W'].
intros Hin. apply map_in_keys_delete in Hin. tauto.
Qed.

Lemma map_size_delete k m :
  (JSMap.size (JSMap.delete k m) <= JSMap.size m)%nat.
Proof.
unfold JSMap.size.
induction m as [|[k0 v0] m IH]; simpl; [lia|].
destruct (String.eqb k k0); simpl; lia.
Qed.

End MapInvariants.

Section CacheInvariant.

Import RekognitionService.

(** The cache holds at most 51 entries, each key once. *)
Definition cache_bounded (s : t) : Prop :=
  JSMap.wf (detectionCache s) /\ (JSMap.size (detectionCache s) <= 51)%nat.

Lemma cacheResult_bounded (now : Z) (key : string) (d : list Detection)
    (s : t) :
  cache_bounded s -> cache_bounded (cacheResult now key d s).
Proof.
unfold cache_bounded, cacheResult. intros [W B]. simpl.
destruct (Nat.ltb_spec 50 (JSMap.size (detectionCache s))) as [Hfull|Hroom].
- destruct (detectionCache s) as [|[k0 e0] rest] eqn:E;
    [simpl in Hfull; lia|].
  cbn [JSMap.first_key].
  assert (D : JSMap.delete k0 ((k0, e0) :: rest) = rest).
  { simpl. rewrite String.eqb_refl. apply map_delete_absent.
    inversion W; assumption. }
  rewrite D. inversion W as [|? ? Hn W']; subst.
  split; [apply map_wf_set; exact W'|].
  pose proof (map_size_set key
                {| entry_data := d; entry_timestamp := now |} rest) as S.
  unfold JSMap.size in *. simpl in B. lia.
- split; [apply map_wf_set; exact W|].
  pose proof (map_size_set key
                {| entry_data := d; entry_timestamp := now |}
                (detectionCache s)) as S.
  lia.
Qed.

Lemma getFromCache_bounded (now : Z) (key : string) (s : t) :
  cache_bounded s -> cache_bounded (snd (getFromCache now key s)).
Proof.
unfold cache_bounded, getFromCache. intros [W B].
destruct (JSMap.get key (detectionCache s)) as [cached|]; [|tauto].
destruct (now - entry_timestamp cached <? cacheTimeout s); simpl; [tauto|].
split; [apply map_wf_delete; exact W|].
pose proof (map_size_delete key (detectionCache s)). lia.
Qed.

(** X11.  Whatever keys are put and looked up, repeated or not, a cache that
    starts empty never holds more than 51 entries and never holds a key
    twice. *)
Theorem cache_never_exceeds_51 :
  (forall s, detectionCache s = JSMap.empty -> cache_bounded s) /\
  (forall now key d s,
      cache_bounded s -> cache_bounded (cacheResult now key d s)) /\
  (forall now key s,
      cache_bounded s -> cache_bounded (snd (getFromCache now key s))) /\
  (forall puts s,
      detectionCache s = JSMap.empty ->
      (JSMap.size (detectionCache (put_all puts s)) <= 51)%nat).
Proof.
assert (E : forall s, detectionCache s = JSMap.empty -> cache_bounded s).
{ intros s E. unfold cache_bounded. rewrite E. split; [constructor|].
  simpl. lia. }
split; [exact E|]. split; [exact cacheResult_bounded|].
split; [exact getFromCache_bounded|].
intros puts s Hs.
assert (G : forall puts s, cache_bounded s -> cache_bounded (put_all puts s)).
{ clear. induction puts as [|p puts IH]; intros s B; [exact B|].
  unfold put_all in *. simpl. apply IH. apply cacheResult_bounded. exact B. }
apply (G puts s (E s Hs)).
Qed.

Lemma toInt32_range (z : Z) : - 2 ^ 31 <= toInt32 z < 2 ^ 31.
Proof.
unfold toInt32.
pose proof (Z.mod_pos_bound (z + 2 ^ 31) (2 ^ 32) ltac:(lia)). lia.
Qed.

Lemma hash_chars_range (str : string) :
  forall hash,
    - 2 ^ 31 <= hash < 2 ^ 31 ->
    - 2 ^ 31 <= hash_chars hash str < 2 ^ 31.
Proof.
induction str as [|c rest IH]; intros hash Hh; simpl; [exact Hh|].
apply IH. apply toInt32_range.
Qed.

Lemma substring_append_prefix (p a : string) :
  substring 0 (String.length p) (p ++ a) = p.
Proof.
induction p as [|c p IH]; simpl.
- destruct a; reflexivity.
- rewrite IH. reflexivity.
Qed.

(** X12.  The cache key is the decimal numeral of a signed 32-bit integer,
    which can be read back from it; and it is computed from the first
    1000 characters only, so two data URLs that agree on them have the
    same key. *)
Theorem cache_key_properties :
  (forall url, exists h,
      - 2 ^ 31 <= h < 2 ^ 31 /\
      generateCacheKey url = NilZero.string_of_int (Z.to_int h) /\
      option_map Z.of_int (NilZero.int_of_string (generateCacheKey url))
      = Some h) /\
  (forall head tail1 tail2 : string,
      String.length head = 1000%nat ->
      generateCacheKey (head ++ tail1) = generateCacheKey (head ++ tail2)).
Proof.
split.
- intros url. unfold generateCacheKey.
  set (h := hash_chars 0 _). exists h.
  split; [apply hash_chars_range; lia|]. split; [reflexivity|].
  rewrite NilZero.isi.
  + simpl. rewrite DecimalZ.of_to. reflexivity.
  + intros E. pose proof (DecimalZ.to_of (Z.to_int h)) as N.
    rewrite DecimalZ.of_to, E in N. discriminate N.
  + intros E. pose proof (DecimalZ.to_of (Z.to_int h)) as N.
    rewrite DecimalZ.of_to, E in N. discriminate N.
- intros head tail1 tail2 L. unfold generateCacheKey.
  rewrite <- L, !substring_append_prefix. reflexivity.
Qed.

End CacheInvariant.

Section DispatcherProperties.

Import RekognitionService.

Variable atob : string -> JsError + string.
Variable detectCustomLabels :
  nat -> Params -> JsError + DetectCustomLabelsResponse.

Local Abbreviation try_detect := (try_detect atob detectCustomLabels).
Local Abbreviation detectLogo_rec := (detectLogo_rec atob detectCustomLabels).
Local Abbreviation detectLogo := (detectLogo atob detectCustomLabels).

Lemma getFromCache_hit (now : Z) (key : string) (s : t)
    (r : list Detection) :
  fst (getFromCache now key s) = Some r ->
  getFromCache now key s = (Some r, s) /\
  exists e, JSMap.get key (detectionCache s) = Some e /\
            entry_data e = r /\ now - entry_timestamp e < cacheTimeout s.
Proof.
unfold getFromCache.
destruct (JSMap.get key (detectionCache s)) as [cached|]; [|discriminate].
destruct (Z.ltb_spec (now - entry_timestamp cached) (cacheTimeout s));
  simpl; [|discriminate].
intros E. inversion E; subst. split; [reflexivity|].
exists cached. auto.
Qed.

Lemma count_calls_app (a b : list Event) :
  count_calls (a ++ b) = (count_calls a + count_calls b)%nat.
Proof. unfold count_calls. rewrite filter_app, length_app. reflexivity. Qed.

(** What one [try] block does: it leaves the settings, the clock and
    the error counter alone, keeps the cache bounded, and either makes
    no remote call or makes one and counts it. *)
Lemma try_detect_effects (url : string) (s : t) (w : World) :
  let s' := snd (fst (try_detect url s w)) in
  let w' := snd (try_detect url s w) in
  same_settings s s' /\
  clock w' = clock w /\
  errors (stats s') = errors (stats s) /\
  (cache_bounded s -> cache_bounded s') /\
  exists ev,
    trace w' = trace w ++ ev /\
    calls w' = (calls w + count_calls ev)%nat /\
    apiCalls (stats s') = apiCalls (stats s) + Z.of_nat (count_calls ev) /\
    (count_calls ev <= 1)%nat /\
    List.length ev = count_calls ev.
Proof.
cbv zeta. unfold RekognitionService.try_detect.
pose proof (getFromCache_settings atob (clock w) (generateCacheKey url) s)
  as G.
pose proof (getFromCache_bounded (clock w) (generateCacheKey url) s) as B.
assert (St : stats (snd (getFromCache (clock w) (generateCacheKey url) s))
             = stats s).
{ unfold getFromCache.
  destruct (JSMap.get _ _) as [c|]; [|reflexivity].
  destruct (_ <? _); reflexivity. }
destruct (getFromCache (clock w) (generateCacheKey url) s) as [c s0].
simpl in G, B, St.
assert (Quiet : same_settings s s0 /\ clock w = clock w /\
                errors (stats s0) = errors (stats s) /\
                (cache_bounded s -> cache_bounded s0) /\
                exists ev,
                  trace w = trace w ++ ev /\
                  calls w = (calls w + count_calls ev)%nat /\
                  apiCalls (stats s0)
                  = apiCalls (stats s) + Z.of_nat (count_calls ev) /\
                  (count_calls ev <= 1)%nat /\
                  List.length ev = count_calls ev).
{ split; [exact G|]. split; [reflexivity|].
  split; [rewrite St; reflexivity|]. split; [exact B|].
  exists []. rewrite app_nil_r, St. unfold count_calls. simpl.
  repeat split; lia. }
destruct c as [r|]; [exact Quiet|].
destruct (dataUrlToBytes atob url) as [e|bytes]; [exact Quiet|].
clear Quiet. unfold remote_call.
set (p := {| Image_Bytes := bytes; ModelArn := _; MinConfidence := _ |}).
assert (Called : forall s1,
           same_settings s0 s1 -> stats s1 = incr_apiCalls (stats s0) \/
             (apiCalls (stats s1) = apiCalls (stats s0) + 1 /\
              errors (stats s1) = errors (stats s0)) ->
           (cache_bounded s0 -> cache_bounded s1) ->
           same_settings s s1 /\ clock w = clock w /\
           errors (stats s1) = errors (stats s) /\
           (cache_bounded s -> cache_bounded s1) /\
           exists ev,
             trace w ++ [EvCall p] = trace w ++ ev /\
             S (calls w) = (calls w + count_calls ev)%nat /\
             apiCalls (stats s1)
             = apiCalls (stats s) + Z.of_nat (count_calls ev) /\
             (count_calls ev <= 1)%nat /\
             List.length ev = count_calls ev).
{ intros s1 Same Hst Hb.
  assert (A : apiCalls (stats s1) = apiCalls (stats s) + 1 /\
              errors (stats s1) = errors (stats s)).
  { destruct Hst as [E|[E1 E2]].
    - rewrite E, <- St. simpl. split; reflexivity.
    - rewrite E1, E2, St. split; reflexivity. }
  destruct A as [A1 A2].
  split; [unfold same_settings in *; intuition congruence|].
  split; [reflexivity|]. split; [exact A2|]. split; [tauto|].
  exists [EvCall p]. unfold count_calls. simpl. repeat split; lia. }
destruct (detectCustomLabels (calls w) p) as [e|result];
  cbn [fst snd clock calls trace].
- match goal with |- same_settings s ?x /\ _ => apply (Called x) end;
    [unfold same_settings; simpl; tauto | left; reflexivity | tauto].
- destruct (processDetectionResults (clock w) result) as [|d ds];
    cbn [fst snd clock calls trace].
  + match goal with |- same_settings s ?x /\ _ => apply (Called x) end;
      [unfold same_settings; simpl; tauto | left; reflexivity | tauto].
  + match goal with |- same_settings s ?x /\ _ => apply (Called x) end.
    * unfold same_settings; simpl; tauto.
    * right. simpl. split; reflexivity.
    * intros Hb. apply (cacheResult_bounded (clock w) (generateCacheKey url)
                          (d :: ds)) in Hb.
      exact Hb.
Qed.

(** The waiting still ahead of [detectLogo] at [retryCount], at most:
    the delays [1000 * k] for [k] from [retryCount + 1] to [maxRetries]. *)
Definition backoff_budget (maxRetries retryCount : Z) : Z :=
  let m := Z.max maxRetries retryCount in
  500 * (m * (m + 1) - retryCount * (retryCount + 1)).

Lemma detectLogo_rec_effects (url : string) (fuel : nat) :
  forall (retryCount : Z) (s : t) (w : World) r s' w',
    0 <= retryCount ->
    detectLogo_rec fuel url retryCount s w = Some (r, s', w') ->
    same_settings s s' /\
    (cache_bounded s -> cache_bounded s') /\
    errors (stats s) <= errors (stats s') /\
    clock w <= clock w' <= clock w + backoff_budget (maxRetries s) retryCount /\
    exists ev,
      trace w' = trace w ++ ev /\
      calls w' = (calls w + count_calls ev)%nat /\
      apiCalls (stats s') = apiCalls (stats s) + Z.of_nat (count_calls ev) /\
      (count_calls ev <= S (Z.to_nat (maxRetries s - retryCount)))%nat.
Proof.
induction fuel as [|fuel IH]; intros rc s w r s' w' Hrc Run;
  [discriminate|].
rewrite detectLogo_rec_step in Run.
assert (Budget : 0 <= backoff_budget (maxRetries s) rc).
{ unfold backoff_budget. cbv zeta.
  destruct (Z.max_spec (maxRetries s) rc) as [[? ->]|[? ->]]; nia. }
destruct (negb (isInitialized s)).
{ inversion Run; subst. unfold same_settings.
  split; [tauto|]. split; [tauto|]. split; [lia|]. split; [lia|].
  exists []. rewrite app_nil_r. unfold count_calls. simpl.
  repeat split; lia. }
pose proof (try_detect_effects url s w) as Try. cbv zeta in Try.
destruct (try_detect url s w) as [[r0 s0] w0]. simpl in Try.
destruct Try as (Same & Clk & Err & Bnd & ev0 & Tr & Ca & Ap & One & _).
destruct r0 as [e|dets].
2: { inversion Run; subst.
     split; [exact Same|]. split; [exact Bnd|]. split; [lia|].
     split; [lia|]. exists ev0. repeat split; try assumption. lia. }
cbv zeta in Run. cbn [maxRetries set_stats] in Run.
destruct Same as (S1 & S2 & S3 & S4 & S5).
set (s1 := set_stats s0 (incr_errors (stats s0))) in *.
assert (Same1 : same_settings s s1)
  by (unfold same_settings, s1; simpl; tauto).
assert (Bnd1 : cache_bounded s -> cache_bounded s1)
  by (intros Hb; apply Bnd in Hb; exact Hb).
destruct ((rc <? maxRetries s0) && isRetryableError e) eqn:Retry.
- apply andb_true_iff in Retry. destruct Retry as [Lt _].
  apply Z.ltb_lt in Lt. rewrite S4 in Lt.
  apply IH in Run; [|lia].
  destruct Run as (Same2 & Bnd2 & Err2 & Clk2 & ev2 & Tr2 & Ca2 & Ap2 & N2).
  unfold delay in Clk2, Tr2, Ca2. cbn [clock calls trace] in Clk2, Tr2, Ca2.
  unfold s1 in Err2, Ap2, N2, Clk2.
  cbn [stats set_stats incr_errors errors apiCalls maxRetries]
    in Err2, Ap2, N2, Clk2.
  rewrite S4 in N2, Clk2.
  split; [unfold same_settings in *; intuition congruence|].
  split; [tauto|]. split; [lia|].
  split.
  + unfold backoff_budget in *. cbv zeta in *.
    rewrite Z.max_l in Clk2 by lia. rewrite Z.max_l by lia. nia.
  + exists (ev0 ++ EvDelay (1000 * (rc + 1)) :: ev2).
    rewrite Tr2, Tr, <- !app_assoc. cbn [app].
    rewrite count_calls_app.
    change (count_calls (EvDelay (1000 * (rc + 1)) :: ev2))
      with (count_calls ev2).
    repeat split; try lia.
- inversion Run; subst.
  split; [exact Same1|]. split; [exact Bnd1|].
  unfold s1. cbn [stats set_stats incr_errors errors apiCalls].
  split; [lia|]. split; [lia|].
  exists ev0. repeat split; try assumption. lia.
Qed.

(** X13.  Whatever the service answers, a [detectLogo] call only appends to
    the event trace, counts in [apiCalls] exactly the remote calls it
    makes, never lowers [errors], and leaves the settings and the bound
    on the cache as they were. *)
Theorem dispatcher_accounting (url : string) (s : t) (w : World)
    (r : string + list Detection) (s' : t) (w' : World) :
  detectLogo url s w = Some (r, s', w') ->
  (exists ev,
      trace w' = trace w ++ ev /\
      calls w' = (calls w + count_calls ev)%nat /\
      apiCalls (stats s') = apiCalls (stats s) + Z.of_nat (count_calls ev)) /\
  errors (stats s) <= errors (stats s') /\
  maxRetries s' = maxRetries s /\
  cacheTimeout s' = cacheTimeout s /\
  confidenceThreshold s' = confidenceThreshold s /\
  isInitialized s' = isInitialized s /\
  (cache_bounded s -> cache_bounded s').
Proof.
intros Run. unfold RekognitionService.detectLogo in Run.
apply detectLogo_rec_effects in Run; [|lia].
destruct Run as (Same & Bnd & Err & _ & ev & Tr & Ca & Ap & _).
destruct Same as (S1 & S2 & S3 & S4 & S5).
split; [exists ev; tauto|]. tauto.
Qed.

Lemma detectLogo_call_bound (url : string) (s : t) (w : World)
    (r : string + list Detection) (s' : t) (w' : World) :
  detectLogo url s w = Some (r, s', w') ->
  Z.of_nat (calls w') - Z.of_nat (calls w) <= Z.max 0 (maxRetries s) + 1.
Proof.
intros Run. unfold RekognitionService.detectLogo in Run.
apply detectLogo_rec_effects in Run; [|lia].
destruct Run as (_ & _ & _ & _ & ev & _ & Ca & _ & N). lia.
Qed.

(** X14.  Whatever the service answers, one [detectLogo] call makes at most
    [maxRetries + 1] remote calls and waits at most
    [500 * maxRetries * (maxRetries + 1)] ms in all (one call and no
    wait when [maxRetries] is negative). *)
Theorem dispatcher_bounds (url : string) (s : t) (w : World)
    (r : string + list Detection) (s' : t) (w' : World) :
  detectLogo url s w = Some (r, s', w') ->
  let m := Z.max 0 (maxRetries s) in
  Z.of_nat (calls w') - Z.of_nat (calls w) <= m + 1 /\
  clock w <= clock w' <= clock w + 500 * m * (m + 1).
Proof.
intros Run. cbv zeta. unfold RekognitionService.detectLogo in Run.
apply detectLogo_rec_effects in Run; [|lia].
destruct Run as (_ & _ & _ & Clk & ev & _ & Ca & _ & N).
unfold backoff_budget in Clk. cbv zeta in Clk.
rewrite Z.max_comm in Clk. split; [lia|].
replace (500 * (Z.max 0 (maxRetries s) * (Z.max 0 (maxRetries s) + 1)
                - 0 * (0 + 1)))
  with (500 * Z.max 0 (maxRetries s) * (Z.max 0 (maxRetries s) + 1))
  in Clk by lia.
exact Clk.
Qed.

Lemma detectLogo_on_hit (url : string) (s : t) (w : World)
    (cached : list Detection) :
  isInitialized s = true ->
  getFromCache (clock w) (generateCacheKey url) s = (Some cached, s) ->
  detectLogo url s w = Some (inr cached, s, w).
Proof.
intros Init Hit.
unfold RekognitionService.detectLogo. rewrite detectLogo_rec_step, Init.
cbn [negb]. cbv iota. unfold RekognitionService.try_detect.
rewrite Hit. reflexivity.
Qed.

(** X15.  A cache hit answers without the service: [detectLogo] returns the
    cached detections and changes neither the state (no counter moves)
    nor the surroundings (no remote call, no wait). *)
Theorem cache_hit_skips_service (url : string) (s : t) (w : World)
    (cached : list Detection) :
  isInitialized s = true ->
  fst (getFromCache (clock w) (generateCacheKey url) s) = Some cached ->
  detectLogo url s w = Some (inr cached, s, w).
Proof.
intros Init Hit. apply getFromCache_hit in Hit. destruct Hit as [Hit _].
apply detectLogo_on_hit; assumption.
Qed.

(** A [try] block whose remote call succeeds. *)
Lemma try_detect_remote_success (url : string) (s : t) (w : World)
    (bytes : list byte) (result : DetectCustomLabelsResponse) :
  fst (getFromCache (clock w) (generateCacheKey url) s) = None ->
  dataUrlToBytes atob url = inr bytes ->
  detectCustomLabels (calls w) (params_of s bytes) = inr result ->
  let dets := processDetectionResults (clock w) result in
  exists s1,
    try_detect url s w
    = (inr dets, s1,
       {| clock := clock w; calls := S (calls w);
          trace := trace w ++ [EvCall (params_of s bytes)] |}) /\
    same_settings s s1 /\
    apiCalls (stats s1) = apiCalls (stats s) + 1 /\
    errors (stats s1) = errors (stats s) /\
    detections (stats s1)
    = detections (stats s) + (match dets with [] => 0 | _ :: _ => 1 end) /\
    JSMap.get (generateCacheKey url) (detectionCache s1)
    = match dets with
      | [] => None
      | _ :: _ => Some {| entry_data := dets; entry_timestamp := clock w |}
      end.
Proof.
intros Miss Dec Ok. cbv zeta.
pose proof (getFromCache_miss _ _ _ Miss) as (Gone & Same & St).
unfold RekognitionService.try_detect.
destruct (getFromCache (clock w) (generateCacheKey url) s) as [c s0].
simpl in *. subst c. rewrite Dec.
destruct Same as (S1 & S2 & S3 & S4 & S5).
unfold remote_call. cbn [fst snd clock calls trace].
unfold params_of in Ok. cbn [modelArn confidenceThreshold set_stats].
rewrite S2, S3, Ok.
destruct (processDetectionResults (clock w) result) as [|d ds].
- eexists. split; [unfold params_of; reflexivity|].
  unfold same_settings. simpl. rewrite St.
  repeat split; try tauto; try lia; try exact Gone.
- eexists. split; [unfold params_of; reflexivity|].
  unfold same_settings. cbn -[Z.add]. rewrite St.
  repeat split; try tauto; try lia; try apply map_get_set_same.
Qed.

(** X16.  Read-through: when the service returns labels for an image that was
    not cached, [detectLogo] makes one call, returns the detections and
    stores them; until [cacheTimeout] has passed, [detectLogo] on any
    data URL with the same cache key returns those detections again
    without calling the service. *)
Theorem read_through_round_trip (url : string) (s : t) (w : World)
    (bytes : list byte) (result : DetectCustomLabelsResponse)
    (d : Detection) (ds : list Detection) :
  isInitialized s = true ->
  fst (getFromCache (clock w) (generateCacheKey url) s) = None ->
  dataUrlToBytes atob url = inr bytes ->
  detectCustomLabels (calls w) (params_of s bytes) = inr result ->
  processDetectionResults (clock w) result = d :: ds ->
  exists s1,
    detectLogo url s w
    = Some (inr (d :: ds), s1,
            {| clock := clock w; calls := S (calls w);
               trace := trace w ++ [EvCall (params_of s bytes)] |}) /\
    apiCalls (stats s1) = apiCalls (stats s) + 1 /\
    detections (stats s1) = detections (stats s) + 1 /\
    forall url2 w2,
      generateCacheKey url2 = generateCacheKey url ->
      clock w2 - clock w < cacheTimeout s ->
      detectLogo url2 s1 w2 = Some (inr (d :: ds), s1, w2).
Proof.
intros Init Miss Dec Ok Dets.
destruct (try_detect_remote_success url s w bytes result Miss Dec Ok)
  as (s1 & T & Same & Api & _ & Det & G).
cbv zeta in T, Det, G. rewrite Dets in T, Det, G.
destruct Same as (S1 & S2 & S3 & S4 & S5).
exists s1. split; [|split; [exact Api|split; [exact Det|]]].
- unfold RekognitionService.detectLogo. rewrite detectLogo_rec_step, Init.
  cbn [negb]. cbv iota. rewrite T. reflexivity.
- intros url2 w2 K Fresh. apply detectLogo_on_hit; [congruence|].
  rewrite K.
  apply (getFromCache_live _ _ _ _ G).
  simpl. rewrite S5. exact Fresh.
Qed.

(** X17.  An empty answer is not cached: when the service returns no label,
    [detectLogo] returns no detection after one call, [detections] does
    not move, and the key is still missing from the cache, so the next
    [detectLogo] for it asks the service again. *)
Theorem empty_result_is_not_cached (url : string) (s : t) (w : World)
    (bytes : list byte) (result : DetectCustomLabelsResponse) :
  isInitialized s = true ->
  fst (getFromCache (clock w) (generateCacheKey url) s) = None ->
  dataUrlToBytes atob url = inr bytes ->
  detectCustomLabels (calls w) (params_of s bytes) = inr result ->
  CustomLabels result = None \/ CustomLabels result = Some [] ->
  exists s1,
    detectLogo url s w
    = Some (inr [], s1,
            {| clock := clock w; calls := S (calls w);
               trace := trace w ++ [EvCall (params_of s bytes)] |}) /\
    apiCalls (stats s1) = apiCalls (stats s) + 1 /\
    detections (stats s1) = detections (stats s) /\
    forall now, getFromCache now (generateCacheKey url) s1 = (None, s1).
Proof.
intros Init Miss Dec Ok Empty.
assert (Dets : processDetectionResults (clock w) result = []).
{ unfold processDetectionResults.
  destruct Empty as [-> | ->]; reflexivity. }
destruct (try_detect_remote_success url s w bytes result Miss Dec Ok)
  as (s1 & T & _ & Api & _ & Det & G).
cbv zeta in T, Det, G. rewrite Dets in T, Det, G.
exists s1. split; [|split; [exact Api|split; [lia|]]].
- unfold RekognitionService.detectLogo. rewrite detectLogo_rec_step, Init.
  cbn [negb]. cbv iota. rewrite T. reflexivity.
- intros now. apply getFromCache_absent. exact G.
Qed.

(** X18.  A data URL that [atob] rejects never reaches the service: when the
    exception is not retryable, [detectLogo] throws at once, having made
    no remote call and counted one error. *)
Theorem undecodable_image_makes_no_call (url : string) (s : t) (w : World)
    (e : JsError) :
  isInitialized s = true ->
  fst (getFromCache (clock w) (generateCacheKey url) s) = None ->
  dataUrlToBytes atob url = inl e ->
  isRetryableError e = false ->
  exists s1,
    detectLogo url s w = Some (inl (handleRekognitionError e), s1, w) /\
    apiCalls (stats s1) = apiCalls (stats s) /\
    errors (stats s1) = errors (stats s) + 1.
Proof.
intros Init Miss Dec Fatal.
pose proof (getFromCache_miss _ _ _ Miss) as (_ & _ & St).
unfold RekognitionService.detectLogo. rewrite detectLogo_rec_step, Init.
cbn [negb]. cbv iota. unfold RekognitionService.try_detect.
destruct (getFromCache (clock w) (generateCacheKey url) s) as [c s0].
simpl in *. subst c. rewrite Dec. cbv zeta. rewrite Fatal, andb_false_r.
eexists. split; [reflexivity|]. simpl. rewrite St. split; reflexivity.
Qed.

End DispatcherProperties.

(* ------------------------------------------------------------------ *)
(** ** Decoding the data URL *)

Fixpoint all_lower (s : string) : bool :=
  match s with
  | EmptyString => true
  | String c s' => RekognitionService.is_lower c && all_lower s'
  end.

Lemma string_length_append (a b : string) :
  String.length (a ++ b) = (String.length a + String.length b)%nat.
Proof. induction a as [|c a IH]; simpl; [reflexivity|]. rewrite IH. reflexivity. Qed.

Lemma strip_prefix_append (p s : string) :
  RekognitionService.strip_prefix p (p ++ s) = Some s.
Proof.
induction p as [|c p IH]; simpl; [reflexivity|].
rewrite Ascii.eqb_refl. exact IH.
Qed.

Lemma skip_lower_run (sub : string) (c : ascii) (rest : string) :
  all_lower sub = true -> RekognitionService.is_lower c = false ->
  RekognitionService.skip_lower (sub ++ String c rest) = String c rest.
Proof.
intros L N. induction sub as [|a sub IH]; simpl in *.
- rewrite N. reflexivity.
- apply andb_true_iff in L. destruct L as [La Ls]. rewrite La. auto.
Qed.

Section DataUrl.

Import RekognitionService.

Variable atob : string -> JsError + string.

(** X19.  For a data URL of the form [data:image/<subtype>;base64,<payload>]
    with a non-empty lower-case subtype, [dataUrlToBytes] hands exactly
    the payload to [atob] and returns the character codes of what
    [atob] gives, or throws what [atob] throws. *)
Theorem dataUrlToBytes_decodes_payload (subtype payload : string) :
  subtype <> EmptyString ->
  all_lower subtype = true ->
  let dataUrl := ("data:image/" ++ subtype ++ ";base64," ++ payload)%string in
  strip_data_url_prefix dataUrl = payload /\
  dataUrlToBytes atob dataUrl
  = match atob payload with
    | inl e => inl e
    | inr binaryString => inr (list_byte_of_string binaryString)
    end.
Proof.
intros NE L. cbv zeta.
assert (S : strip_data_url_prefix
              ("data:image/" ++ subtype ++ ";base64," ++ payload) = payload).
{ unfold strip_data_url_prefix. rewrite strip_prefix_append.
  change (";base64," ++ payload)%string
    with (String ";" ("base64," ++ payload)).
  rewrite skip_lower_run by (exact L || reflexivity).
  rewrite string_length_append.
  destruct subtype as [|c subtype]; [congruence|].
  destruct (Nat.ltb_spec
              (String.length (String ";" ("base64," ++ payload)))
              (String.length (String c subtype)
               + String.length (String ";" ("base64," ++ payload))));
    [|simpl in *; lia].
  change (String ";" ("base64," ++ payload))
    with (";base64," ++ payload)%string.
  rewrite strip_prefix_append. reflexivity. }
split; [exact S|]. unfold dataUrlToBytes. rewrite S. reflexivity.
Qed.

End DataUrl.

(* ================================================================== *)
(** * One pass of the detection loop *)

Section LoopProperties.

Import RekognitionService FMFLogoApp.

Variable atob : string -> JsError + string.
Variable detectCustomLabels :
  nat -> Params -> JsError + DetectCustomLabelsResponse.

Local Abbreviation processFrame := (processFrame atob detectCustomLabels).
Local Abbreviation detectLogo :=
  (RekognitionService.detectLogo atob detectCustomLabels).

(** X20.  A pass that does not dispatch leaves the dispatcher and the
    surroundings alone and asks nothing of the overlay: when the loop is
    stopped it does nothing at all; when the camera has no frame, or
    smart detection rejects the frame, it only schedules the next
    pass. *)
Theorem idle_pass_makes_no_call (captured : option FrameData) (app : t)
    (w : World) :
  isRunning app = false \/
  captured = None \/
  (exists frameData,
      captured = Some frameData /\
      fst (SmartDetection.shouldProcessFrame (clock w) frameData
             (smartDetection app)) = false) ->
  let '(app', w', actions) := processFrame captured app w in
  w' = w /\
  rekognition app' = rekognition app /\
  isRunning app' = isRunning app /\
  actions = (if isRunning app then [ScheduleNextFrame] else []).
Proof.
intros Idle. unfold FMFLogoApp.processFrame.
destruct (isRunning app) eqn:Run; simpl; [|tauto].
destruct Idle as [F|[->|(frameData & -> & Rej)]];
  [discriminate | tauto |].
destruct (SmartDetection.shouldProcessFrame (clock w) frameData
            (smartDetection app)) as [process sd].
simpl in Rej. subst process. simpl. rewrite ?Run. tauto.
Qed.

(** X21.  Every pass of a running loop ends by scheduling the next one, and
    makes at most [maxRetries + 1] remote calls. *)
Theorem pass_always_reschedules (captured : option FrameData) (app : t)
    (w : World) :
  isRunning app = true ->
  let '(app', w', actions) := processFrame captured app w in
  List.last actions HideDetection = ScheduleNextFrame /\
  isRunning app' = true /\
  Z.of_nat (calls w') - Z.of_nat (calls w)
  <= Z.max 0 (maxRetries (rekognition app)) + 1.
Proof.
intros Run. unfold FMFLogoApp.processFrame. rewrite Run. simpl negb.
cbv iota.
assert (M : 0 <= Z.max 0 (maxRetries (rekognition app))) by lia.
destruct captured as [frameData|]; [|simpl; repeat split; first [exact Run | lia]].
destruct (SmartDetection.shouldProcessFrame (clock w) frameData
            (smartDetection app)) as [process sd].
destruct process; [|simpl; repeat split; first [exact Run | lia]].
destruct (detectLogo_total atob detectCustomLabels (dataURL frameData)
            (rekognition app) w) as [[[r rk] w1] Res].
rewrite Res.
pose proof (detectLogo_call_bound atob detectCustomLabels _ _ _ _ _ _ Res)
  as Calls.
destruct r as [message|detections].
- destruct (includes message "ThrottlingException"); simpl;
    repeat split; first [exact Run | lia].
- destruct detections; simpl; repeat split; first [exact Run | lia].
Qed.

(** The message [detectLogo] throws for an error with one of the codes
    that [handleRekognitionError] names never contains
    ["ThrottlingException"]. *)
Lemma named_error_message_has_no_code (e : JsError) (c : string) :
  code e = Some c ->
  In c ["InvalidParameterException"; "ResourceNotFoundException";
        "AccessDeniedException"; "ThrottlingException";
        "LimitExceededException"; "InternalServerError"]%string ->
  includes (handleRekognitionError e) "ThrottlingException" = false.
Proof.
intros Hc Hin. unfold handleRekognitionError, code_is. rewrite Hc.
simpl in Hin.
decompose [or] Hin; subst; try contradiction; vm_compute; reflexivity.
Qed.

(** X22.  When the service throttles every call, a pass that dispatches a
    frame makes [maxRetries + 1] calls, and then takes no cool-down:
    the test [error.message.includes('ThrottlingException')] of the loop
    fails on the message that [detectLogo] throws, so the pass only
    schedules the next one. *)
Theorem throttled_pass_takes_no_cooldown (frameData : FrameData) (app : t)
    (w : World) (bytes : list byte) :
  isRunning app = true ->
  fst (SmartDetection.shouldProcessFrame (clock w) frameData
         (smartDetection app)) = true ->
  isInitialized (rekognition app) = true ->
  0 <= maxRetries (rekognition app) ->
  fst (getFromCache (clock w) (generateCacheKey (dataURL frameData))
         (rekognition app)) = None ->
  dataUrlToBytes atob (dataURL frameData) = inr bytes ->
  (forall n, exists e,
      detectCustomLabels n (params_of (rekognition app) bytes) = inl e /\
      code e = Some "ThrottlingException"%string) ->
  let '(app', w', actions) := processFrame (Some frameData) app w in
  actions = [ScheduleNextFrame] /\
  calls w' = (calls w + S (Z.to_nat (maxRetries (rekognition app))))%nat.
Proof.
intros Run Adm Init Max Miss Dec Thr.
assert (Fail : forall n, exists e,
           detectCustomLabels n (params_of (rekognition app) bytes) = inl e /\
           isRetryableError e = true).
{ intros n. destruct (Thr n) as (e & Fe & Ce). exists e. split; [exact Fe|].
  destruct error_classification as (C1 & _).
  apply (C1 e _ Ce). simpl. tauto. }
destruct (retry_loop atob detectCustomLabels (dataURL frameData) bytes
            (Z.to_nat (maxRetries (rekognition app))) Dec
            (S (Z.to_nat (maxRetries (rekognition app)))) 0
            (rekognition app) w Fail Init)
  as (s' & w' & e & R & Fe & _ & Ca & _).
{ simpl. lia. }
{ lia. }
{ exact Miss. }
destruct (Thr (calls w + Z.to_nat (maxRetries (rekognition app)))%nat)
  as (e' & Fe' & Ce').
rewrite Fe in Fe'. inversion Fe'; subst e'.
unfold FMFLogoApp.processFrame. rewrite Run. simpl negb. cbv iota.
destruct (SmartDetection.shouldProcessFrame (clock w) frameData
            (smartDetection app)) as [process sd].
simpl in Adm. subst process.
unfold RekognitionService.detectLogo. simpl Z.of_nat in R. rewrite R.
rewrite (named_error_message_has_no_code e _ Ce') by (simpl; tauto).
split; [reflexivity | exact Ca].
Qed.

End LoopProperties.

(* ================================================================== *)
(** * The further properties on concrete inputs *)

Module MoreFixtures.



Definition atob_bad (base64Data : string)
    : RekognitionService.JsError + string :=
  inl {| RekognitionService.code := None;
         RekognitionService.statusCode := None;
         RekognitionService.message :=
           Some "The string to be decoded is not correctly encoded."%string |}.

(** A service that finds the logo with 85 % confidence, and one that
    finds nothing. *)
Definition always_logo (n : nat) (p : RekognitionService.Params)
    : RekognitionService.JsError
      + RekognitionService.DetectCustomLabelsResponse :=
  inr {| RekognitionService.CustomLabels :=
           Some [ {| RekognitionService.Name := "Logo"%string;
                     RekognitionService.Confidence := FloatNum.of_Z 85;
                     RekognitionService.Geometry_ := None |} ] |}.

(** What [detectLogo] makes of that answer at time 0. *)
Definition found : list RekognitionService.Detection :=
  [ {| RekognitionService.name := "Logo"%string;
       RekognitionService.confidence := (FloatNum.of_Z 85 / 100)%float;
       RekognitionService.boundingBox := None;
       RekognitionService.timestamp := 0 |} ].

Definition always_nothing (n : nat) (p : RekognitionService.Params)
    : RekognitionService.JsError
      + RekognitionService.DetectCustomLabelsResponse :=
  inr {| RekognitionService.CustomLabels := Some [] |}.

Definition world_at (now : Z) : RekognitionService.World :=
  {| RekognitionService.clock := now;
     RekognitionService.calls := 0;
     RekognitionService.trace := [] |}.

(** The application as [startDetection] leaves it. *)
Definition running_app : FMFLogoApp.t :=
  {| FMFLogoApp.isRunning := true;
     FMFLogoApp.performance :=
       {| FMFLogoApp.frameCount := 0; FMFLogoApp.lastFpsUpdate := 0;
          FMFLogoApp.fps := 0 |};
     FMFLogoApp.smartDetection := Fixtures.fresh;
     FMFLogoApp.rekognition := Fixtures.service |}.

(** A string of 1000 characters. *)
Definition thousand_As : string :=
  string_of_list_ascii (List.repeat "A"%char 1000).

End MoreFixtures.

Section MoreRuns.

Import Fixtures MoreFixtures.

Lemma counters_count_calls_witness :
  SmartDetection.isEnabled fresh = true /\
  SmartDetection.framesAnalyzed
    (SmartDetection.stats
       (snd (SmartDetection.run_frames
               [(5000, frame_of edge3); (5001, frame_of edge3)] fresh)))
  = SmartDetection.framesAnalyzed (SmartDetection.stats fresh) + 2.
Proof.
split; [reflexivity|].
apply (counters_count_calls
         [(5000, frame_of edge3); (5001, frame_of edge3)] fresh eq_refl).
Defined.

Lemma quiet_period_after_admission_witness :
  SmartDetection.isEnabled fresh = true /\
  fst (SmartDetection.shouldProcessFrame_at 5000 (frame_of edge3) fresh)
  = SmartDetection.RetAdmitted /\
  SmartDetection.lastScanTime
    (snd (SmartDetection.run_frames
            [(5500, frame_of edge3m); (6999, frame_of black1)]
            (snd (SmartDetection.shouldProcessFrame_at 5000 (frame_of edge3)
                    fresh))))
  = 5000.
Proof.
assert (A : fst (SmartDetection.shouldProcessFrame_at 5000 (frame_of edge3)
                   fresh) = SmartDetection.RetAdmitted)
  by (vm_compute; reflexivity).
split; [reflexivity|]. split; [exact A|].
apply (quiet_period_after_admission 5000 (frame_of edge3) fresh
         [(5500, frame_of edge3m); (6999, frame_of black1)] eq_refl A).
intros now f [E|[E|[]]]; inversion E; subst;
  change (SmartDetection.scanInterval fresh) with 2000; lia.
Defined.

Lemma degenerate_frames_witness :
  width black1 <= 2 /\
  SmartDetection.calculateSharpness (T:=float) black1 = num_of_Z 0.
Proof.
split; [simpl; lia|].
apply (proj1 (@degenerate_frames float _) black1). left. simpl. lia.
Defined.





Lemma cache_never_exceeds_51_witness :
  RekognitionService.detectionCache service = JSMap.empty /\
  (JSMap.size
     (RekognitionService.detectionCache
        (RekognitionService.put_all (puts_upto 60 ++ puts_upto 60) service))
   <= 51)%nat.
Proof.
split; [reflexivity|].
apply (proj2 (proj2 (proj2 cache_never_exceeds_51))). reflexivity.
Defined.

Lemma cache_key_properties_witness :
  String.length thousand_As = 1000%nat /\
  RekognitionService.generateCacheKey (thousand_As ++ "left")
  = RekognitionService.generateCacheKey (thousand_As ++ "right").
Proof.
assert (L : String.length thousand_As = 1000%nat)
  by (vm_compute; reflexivity).
split; [exact L|].
apply (proj2 cache_key_properties thousand_As "left"%string "right"%string L).
Defined.

Section DispatcherRuns.

Import RekognitionService.

Lemma dispatcher_accounting_witness :
  exists r s' w',
    detectLogo atob_ok (always_failing throttled) jpeg_url service world0
    = Some (r, s', w') /\
    apiCalls (stats s') = 4 /\ calls w' = 4%nat.
Proof.
destruct (detectLogo atob_ok (always_failing throttled) jpeg_url service
            world0) as [[[r s'] w']|] eqn:Run; [|vm_compute in Run; congruence].
exists r, s', w'. split; [reflexivity|].
destruct (dispatcher_accounting atob_ok (always_failing throttled)
            jpeg_url service world0 r s' w' Run) as ((ev & Tr & Ca & Ap) & _).
assert (E : calls w' = 4%nat)
  by (vm_compute in Run; inversion Run; reflexivity).
split; [|exact E].
rewrite Ap. change (apiCalls (stats service)) with 0.
rewrite E in Ca. simpl in Ca. rewrite <- Ca. reflexivity.
Defined.

Lemma dispatcher_bounds_witness :
  exists r s' w',
    detectLogo atob_ok (always_failing throttled) jpeg_url service world0
    = Some (r, s', w') /\
    Z.of_nat (calls w') - Z.of_nat (calls world0) <= 3 + 1 /\
    clock world0 <= clock w' <= clock world0 + 6000.
Proof.
destruct (detectLogo atob_ok (always_failing throttled) jpeg_url service
            world0) as [[[r s'] w']|] eqn:Run; [|vm_compute in Run; congruence].
exists r, s', w'. split; [reflexivity|].
apply (dispatcher_bounds atob_ok (always_failing throttled)
         jpeg_url service world0 r s' w' Run).
Defined.

Lemma cache_hit_skips_service_witness :
  let s := cacheResult 0 (generateCacheKey jpeg_url) [logo] service in
  isInitialized s = true /\
  fst (getFromCache (clock (world_at 4999)) (generateCacheKey jpeg_url) s)
  = Some [logo] /\
  detectLogo atob_ok (always_failing throttled) jpeg_url s (world_at 4999)
  = Some (inr [logo], s, world_at 4999).
Proof.
cbv zeta.
assert (H : fst (getFromCache (clock (world_at 4999))
                   (generateCacheKey jpeg_url)
                   (cacheResult 0 (generateCacheKey jpeg_url) [logo] service))
            = Some [logo]) by (vm_compute; reflexivity).
split; [reflexivity|]. split; [exact H|].
apply (cache_hit_skips_service atob_ok (always_failing throttled) jpeg_url
         (cacheResult 0 (generateCacheKey jpeg_url) [logo] service)
         (world_at 4999) [logo] eq_refl H).
Defined.

Lemma read_through_round_trip_witness :
  isInitialized service = true /\
  fst (getFromCache (clock world0) (generateCacheKey jpeg_url) service)
  = None /\
  dataUrlToBytes atob_ok jpeg_url = inr [x61; x62; x63] /\
  exists s1,
    detectLogo atob_ok always_logo jpeg_url service world0
    = Some (inr found, s1,
            {| clock := 0; calls := 1;
               trace := [EvCall (params_of service [x61; x62; x63])] |}) /\
    detectLogo atob_ok always_logo jpeg_url s1 (world_at 4999)
    = Some (inr found, s1, world_at 4999).
Proof.
split; [reflexivity|]. split; [reflexivity|]. split; [reflexivity|].
destruct (read_through_round_trip atob_ok always_logo jpeg_url service
            world0 [x61; x62; x63]
            {| CustomLabels :=
                 Some [ {| Name := "Logo"%string;
                           Confidence := FloatNum.of_Z 85;
                           Geometry_ := None |} ] |}
            (List.hd logo found) (List.tl found)
            eq_refl eq_refl eq_refl eq_refl eq_refl)
  as (s1 & R & _ & _ & Again).
exists s1. split; [exact R|].
apply (Again jpeg_url (world_at 4999) eq_refl).
change (cacheTimeout service) with 5000. simpl. lia.
Defined.

Lemma empty_result_is_not_cached_witness :
  isInitialized service = true /\
  dataUrlToBytes atob_ok jpeg_url = inr [x61; x62; x63] /\
  exists s1,
    detectLogo atob_ok always_nothing jpeg_url service world0
    = Some (inr [], s1,
            {| clock := 0; calls := 1;
               trace := [EvCall (params_of service [x61; x62; x63])] |}) /\
    getFromCache 1 (generateCacheKey jpeg_url) s1 = (None, s1).
Proof.
split; [reflexivity|]. split; [reflexivity|].
destruct (empty_result_is_not_cached atob_ok always_nothing jpeg_url
            service world0 [x61; x62; x63] {| CustomLabels := Some [] |}
            eq_refl eq_refl eq_refl eq_refl (or_intror eq_refl))
  as (s1 & R & _ & _ & Miss).
exists s1. split; [exact R | apply Miss].
Defined.

Lemma undecodable_image_makes_no_call_witness :
  isInitialized service = true /\
  (exists e, dataUrlToBytes atob_bad jpeg_url = inl e /\
             isRetryableError e = false) /\
  exists s1,
    detectLogo atob_bad always_logo jpeg_url service world0
    = Some (inl "AWS Error: The string to be decoded is not correctly encoded."%string,
            s1, world0) /\
    errors (stats s1) = errors (stats service) + 1.
Proof.
split; [reflexivity|].
split; [eexists; split; reflexivity|].
destruct (undecodable_image_makes_no_call atob_bad always_logo jpeg_url
            service world0 _ eq_refl eq_refl eq_refl eq_refl)
  as (s1 & R & _ & E).
exists s1. split; [exact R | exact E].
Defined.

Lemma dataUrlToBytes_decodes_payload_witness :
  "jpeg"%string <> EmptyString /\
  all_lower "jpeg" = true /\
  strip_data_url_prefix "data:image/jpeg;base64,AAAA" = "AAAA"%string.
Proof.
assert (N : "jpeg"%string <> EmptyString) by discriminate.
split; [exact N|]. split; [reflexivity|].
apply (dataUrlToBytes_decodes_payload atob_ok "jpeg" "AAAA" N eq_refl).
Defined.

End DispatcherRuns.

Section LoopRuns.

Import RekognitionService FMFLogoApp.

Lemma idle_pass_makes_no_call_witness :
  fst (SmartDetection.shouldProcessFrame (clock (world_at 1500))
         (frame_of edge3) (smartDetection running_app)) = false /\
  snd (processFrame atob_ok always_logo (Some (frame_of edge3)) running_app
         (world_at 1500))
  = [ScheduleNextFrame].
Proof.
assert (R : fst (SmartDetection.shouldProcessFrame (clock (world_at 1500))
                   (frame_of edge3) (smartDetection running_app)) = false)
  by (vm_compute; reflexivity).
split; [exact R|].
pose proof (idle_pass_makes_no_call atob_ok always_logo
              (Some (frame_of edge3)) running_app (world_at 1500)
              (or_intror (or_intror
                 (ex_intro _ (frame_of edge3) (conj eq_refl R))))) as W.
destruct (processFrame atob_ok always_logo (Some (frame_of edge3))
            running_app (world_at 1500)) as [[app' w'] actions].
simpl. apply W.
Defined.

Lemma pass_always_reschedules_witness :
  isRunning running_app = true /\
  List.last
    (snd (processFrame atob_ok always_logo (Some (frame_of edge3))
            running_app (world_at 5000)))
    HideDetection
  = ScheduleNextFrame.
Proof.
split; [reflexivity|].
pose proof (pass_always_reschedules atob_ok always_logo
              (Some (frame_of edge3)) running_app (world_at 5000) eq_refl)
  as W.
destruct (processFrame atob_ok always_logo (Some (frame_of edge3))
            running_app (world_at 5000)) as [[app' w'] actions].
simpl. apply W.
Defined.

Lemma throttled_pass_takes_no_cooldown_witness :
  isRunning running_app = true /\
  fst (SmartDetection.shouldProcessFrame (clock (world_at 5000))
         (frame_of edge3) (smartDetection running_app)) = true /\
  snd (processFrame atob_ok (always_failing throttled)
         (Some (frame_of edge3)) running_app (world_at 5000))
  = [ScheduleNextFrame].
Proof.
assert (A : fst (SmartDetection.shouldProcessFrame (clock (world_at 5000))
                   (frame_of edge3) (smartDetection running_app)) = true)
  by (vm_compute; reflexivity).
split; [reflexivity|]. split; [exact A|].
pose proof (throttled_pass_takes_no_cooldown atob_ok
              (always_failing throttled) (frame_of edge3) running_app
              (world_at 5000) [x61; x62; x63] eq_refl A eq_refl) as W.
destruct (processFrame atob_ok (always_failing throttled)
            (Some (frame_of edge3)) running_app (world_at 5000))
  as [[app' w'] actions].
simpl. apply W.
- vm_compute. congruence.
- reflexivity.
- reflexivity.
- intros n. exists throttled. split; reflexivity.
Defined.

End LoopRuns.

End MoreRuns.
